(** * Zenith image generator: credential rotation, generation lifecycle
      and history ledger

    A shallow embedding of
    - [apps/web/src/components/flow/ImageNode.tsx]
      ([generateImageApiSingle], [generateImageWithRotation], the
      mount effect of [ImageNodeComponent]),
    - [apps/web/src/lib/api.ts] ([parseErrorResponse], [getErrorMessage],
      [generateImage], [upscaleImage]),
    - the history store ([safeParseArray], [writeHistory], [generateId],
      [getHistory], [saveToHistory], [deleteHistoryItem],
      [clearExpiredHistory], [clearAllHistory]),
    - the image generator hook ([handleGenerate]).

    JavaScript numbers that the code uses as integers (pixel sizes, seeds,
    HTTP status codes, millisecond clock readings) are integers of [Z]:
    every clock reading and every [now + HISTORY_TTL_MS] stays far below
    2^53, where the double arithmetic of the source is exact. *)

From Stdlib Require Import ZArith String Ascii List Bool Lia.
From stdpp Require Import base decidable countable gmap strings list pretty.

Local Open Scope string_scope.
Local Open Scope Z_scope.
Local Open Scope list_scope.

#[local] Set Warnings "-clear-no-such-hyp".

(** ** JavaScript values and errors *)

Module Js.

(** A value read back from [JSON.parse]d storage, as far as
    [typeof v === 'number'] and [v > now] can tell values apart. *)
Inductive JsValue : Type :=
| JsUndefined
| JsNull
| JsBool (b : bool)
| JsNumber (n : Z)
| JsString (s : string)
| JsObject.

Definition typeofNumber (v : JsValue) : bool :=
  match v with JsNumber _ => true | _ => false end.

(** [!!s] for a string: only the empty string is falsy. *)
Definition truthy (s : string) : bool := negb (String.eqb s "").

(** [!!t] for [string | null | undefined]. *)
Definition truthyOpt (t : option string) : bool :=
  match t with Some s => truthy s | None => false end.

(** [a || b] where [a] is [string | undefined]. *)
Definition orElse (a : option string) (b : string) : string :=
  match a with Some s => if truthy s then s else b | None => b end.

(** [new Error(message)], with the [status] the image node attaches. *)
Record JsError : Type := mkError { message : string; status : option Z }.

Definition Error (msg : string) : JsError := mkError msg None.

(** [s.slice(0, n)] *)
Definition slice0 (n : nat) (s : string) : string := String.substring 0 n s.

(** [a.join(',')], which is also [String(a)] for an array. *)
Definition joinComma (l : list string) : string := String.concat "," l.

End Js.
Export Js.

(** ** Providers, requests and responses *)

Inductive ProviderType : Type := gitee | huggingface | modelscope.

Definition providerId (p : ProviderType) : string :=
  match p with
  | gitee => "gitee"
  | huggingface => "huggingface"
  | modelscope => "modelscope"
  end.

#[global] Instance ProviderType_eq_dec : EqDecision ProviderType.
Proof. solve_decision. Defined.

#[global] Instance ProviderType_countable : Countable ProviderType.
Proof.
  refine (inj_countable'
            (fun p => match p with gitee => 0%nat | huggingface => 1%nat | modelscope => 2%nat end)
            (fun n => match n with 0%nat => gitee | 1%nat => huggingface | _ => modelscope end) _).
  intros []; reflexivity.
Defined.

(** An entry of [PROVIDER_CONFIGS] ([@/lib/constants], not part of the
    sources at hand: the table is a parameter of the development). *)
Record ProviderConfig : Type := {
  name : string;
  requiresAuth : bool;
  authHeader : string;
}.

(** [ImageDetails] of [@z-image/shared], with the fields the sources read. *)
Record ImageDetails : Type := {
  img_url : string;
  img_provider : string;
  img_model : string;
  img_dimensions : string;
  img_duration : string;
  img_seed : Z;
  img_steps : Z;
  img_prompt : string;
  img_negativePrompt : string;
}.

(** The JSON bodies sent to the backend. *)
Inductive RequestBody : Type :=
| GenerateBody (provider : ProviderType) (model prompt : string)
    (negativePrompt : option string) (width height : Z)
    (steps seed : option Z)
| UpscaleBody (url : string) (scale : Z).

Record Request : Type := {
  endpoint : string;
  method : string;
  headers : list (string * string);
  body : RequestBody;
}.

(** [details] of an [ApiErrorResponse]. *)
Record ErrorDetails : Type := {
  d_provider : option string;
  d_retryAfter : option Z;
  d_upstream : option string;
}.

(** A parsed JSON object: the union of the optional fields that
    [GenerateApiResponse], [GenerateSuccessResponse], [UpscaleResponse]
    and [ApiErrorResponse] declare. *)
Record JsonObject : Type := {
  j_error : option string;
  j_code : option string;
  j_details : option ErrorDetails;
  j_imageDetails : option ImageDetails;
  j_url : option string;
}.

(** What [JSON.parse] gives for a body. [null] is the one value on which
    reading a property throws; [typeError] is the message of the
    [TypeError] the engine raises there. Every other value, an object or
    an array, a number, a string or a boolean, reads a property it does
    not have as [undefined]: it is an object of optional fields. *)
Inductive JsonData : Type :=
| JsonNull (typeError : string)
| JsonObj (object : JsonObject).

(** The fields a parsed body has; [null] has none. *)
Definition fieldsOf (data : JsonData) : JsonObject :=
  match data with
  | JsonObj object => object
  | JsonNull _ =>
      {| j_error := None; j_code := None; j_details := None;
         j_imageDetails := None; j_url := None |}
  end.

Coercion fieldsOf : JsonData >-> JsonObject.

(** The text of a response: either [JSON.parse] accepts it, or it does not
    (the empty text included) and raises a [SyntaxError] with an
    engine-specific message. *)
Inductive ResponseText : Type :=
| Unparsable (text : string) (syntaxError : string)
| Json (data : JsonData).

Record Response : Type := { res_status : Z; res_text : ResponseText }.

(** [res.ok] *)
Definition ok (r : Response) : bool :=
  (200 <=? res_status r) && (res_status r <=? 299).

(** What [await fetch(...)] does: rejects (network failure) or resolves. *)
Inductive FetchOutcome : Type :=
| Rejected (e : JsError)
| Resolved (r : Response).

(** ** The history entry, as stored *)

Inductive Source : Type := home | flow.

(** [Omit<ImageHistoryItem, 'id' | 'timestamp' | 'expiresAt'>] *)
Record HistoryInput : Type := {
  h_url : string;
  h_prompt : string;
  h_negativePrompt : option string;
  h_providerId : ProviderType;
  h_providerName : string;
  h_modelId : string;
  h_modelName : string;
  h_width : Z;
  h_height : Z;
  h_steps : Z;
  h_seed : Z;
  h_duration : option string;
  h_source : option Source;
}.

(** [ImageHistoryItem]. [expiresAt] is what the store's filters test with
    [typeof]: an entry read back from storage may carry anything there. *)
Record ImageHistoryItem : Type := {
  input : HistoryInput;
  id : string;
  timestamp : Z;
  expiresAt : JsValue;
}.

(** An element of the stored array: [safeParseArray] keeps the elements
    with [!!x && typeof x === 'object']. *)
Inductive StoredElem : Type :=
| NotAnObject
| Item (i : ImageHistoryItem).

(** What [localStorage.getItem(HISTORY_STORAGE_KEY)] holds when it is not
    [null]: text that is empty or does not parse, a JSON value that is not
    an array, or an array. *)
Inductive Stored : Type :=
| Malformed
| NonArray
| ArrayOf (elems : list StoredElem).

(** ** The environment and the mutable world *)

(** The four labels of the error classifier. *)
Inductive ErrorClass : Type := quota | auth | transient | fatal.

(** Everything the code consults but does not own. *)
Record Env : Type := {
  (** [import.meta.env.VITE_API_URL || ''] *)
  API_URL : string;
  PROVIDER_CONFIGS : ProviderType -> ProviderConfig;
  (** the backend: the outcome of a request, given the requests before it *)
  fetch : list Request -> Request -> FetchOutcome;
  (** the error classifier behind [isQuotaError] *)
  classify : JsError -> ErrorClass;
  (** the k-th reading of [Date.now()] *)
  Date_now : nat -> Z;
  (** ['randomUUID' in crypto] *)
  hasRandomUUID : bool;
  (** the k-th random draw, as text: the UUID of [crypto.randomUUID()],
      or [Math.random().toString(16).slice(2)] *)
  random : nat -> string;
  (** whether [localStorage.setItem] takes this value (it throws on
      quota errors otherwise) *)
  setItemAccepts : list ImageHistoryItem -> bool;
}.

Record World : Type := {
  (** exhausted (provider, secret) pairs of the token pool *)
  pool : gset (ProviderType * string);
  (** the requests sent so far, oldest first *)
  requests : list Request;
  (** the value under [HISTORY_STORAGE_KEY] *)
  localStorage : option Stored;
  (** clock readings and random draws taken so far *)
  ticks : nat;
  draws : nat;
}.

Definition setPool (f : gset (ProviderType * string) -> gset (ProviderType * string))
    (w : World) : World :=
  {| pool := f (pool w); requests := requests w; localStorage := localStorage w;
     ticks := ticks w; draws := draws w |}.

Definition setRequests (rs : list Request) (w : World) : World :=
  {| pool := pool w; requests := rs; localStorage := localStorage w;
     ticks := ticks w; draws := draws w |}.

Definition setLocalStorage (s : option Stored) (w : World) : World :=
  {| pool := pool w; requests := requests w; localStorage := s;
     ticks := ticks w; draws := draws w |}.

Definition tick (w : World) : World :=
  {| pool := pool w; requests := requests w; localStorage := localStorage w;
     ticks := S (ticks w); draws := draws w |}.

Definition draw (w : World) : World :=
  {| pool := pool w; requests := requests w; localStorage := localStorage w;
     ticks := ticks w; draws := S (draws w) |}.

(** ** Computations that may throw *)

Inductive Outcome (A : Type) : Type :=
| Returned (a : A)
| Thrown (e : JsError).
Arguments Returned {A} a.
Arguments Thrown {A} e.

Definition M (A : Type) : Type := World -> Outcome A * World.

Definition throw {A} (e : JsError) : M A := fun w => (Thrown e, w).

(** [try { m } catch (err) { h err }] *)
Definition tryCatch {A} (m : M A) (h : JsError -> M A) : M A :=
  fun w => match m w with
           | (Returned a, w') => (Returned a, w')
           | (Thrown e, w') => h e w'
           end.

(** ** Types of the unified API client *)

Record ApiErrorInfo : Type := {
  ei_message : string;
  ei_code : option string;
  ei_details : option ErrorDetails;
}.

(** [ApiResponse<T>] *)
Inductive ApiResponse (T : Type) : Type :=
| Success (data : T)
| Failure (error : string) (errorInfo : option ApiErrorInfo).
Arguments Success {T} data.
Arguments Failure {T} error errorInfo.

(** The token argument as the callers pass it: [undefined], a string, or
    (from the hook) an array of strings. *)
Inductive TokenArg : Type :=
| TokenUndefined
| TokenString (s : string)
| TokenArray (l : list string).

(** [!!t]: an array is truthy, whatever it holds. *)
Definition truthyArg (t : TokenArg) : bool :=
  match t with
  | TokenUndefined => false
  | TokenString s => truthy s
  | TokenArray _ => true
  end.

(** The header text [String(t)]. *)
Definition headerText (t : TokenArg) : string :=
  match t with
  | TokenUndefined => "undefined"
  | TokenString s => s
  | TokenArray l => joinComma l
  end.

Record GenerateOptions : Type := {
  o_provider : ProviderType;
  o_prompt : string;
  o_negativePrompt : option string;
  o_width : Z;
  o_height : Z;
  o_steps : option Z;
  o_seed : option Z;
  o_model : option string;
}.

(** ** State of the generator hook and of an image node *)

Inductive Toast : Type :=
| ToastError (msg : string)
| ToastSuccess (msg : string).

(** [ImageDetails & { historyId?: string; generatedAt?: number }] *)
Record ImageDetailsWithMeta : Type := {
  md_details : ImageDetails;
  md_historyId : option string;
  md_generatedAt : option Z;
}.

(** What [handleGenerate] reads from the hook's state. [parseTokens]
    ([@/lib/tokenRotation]) is not among the sources: the two token lists
    are its results, [parseTokens(currentToken)] and
    [parseTokens(tokens.huggingface)]. *)
Record HookInputs : Type := {
  in_provider : ProviderType;
  in_providerTokens : list string;
  in_hfTokens : list string;
  in_prompt : string;
  in_negativePrompt : string;
  in_width : Z;
  in_height : Z;
  in_steps : Z;
  in_model : string;
  in_upscale8k : bool;
}.

(** The options [handleGenerate] passes to [generateImage]:
    [{ provider, prompt, negativePrompt, width, height, steps, model }]. *)
Definition hookOptions (i : HookInputs) : GenerateOptions :=
  {| o_provider := in_provider i; o_prompt := in_prompt i;
     o_negativePrompt := Some (in_negativePrompt i);
     o_width := in_width i; o_height := in_height i;
     o_steps := Some (in_steps i); o_seed := None;
     o_model := Some (in_model i) |}.

(** What [handleGenerate] writes: the React state cells it sets, and the
    toasts it raises (oldest first). *)
Record HookView : Type := {
  v_loading : bool;
  v_imageDetails : option ImageDetailsWithMeta;
  v_historyId : option string;
  v_generatedAt : option Z;
  v_isUpscaled : bool;
  v_isBlurred : bool;
  v_showInfo : bool;
  v_status : string;
  v_toasts : list Toast;
}.

Definition newline : string := String (Ascii.ascii_of_nat 10) EmptyString.

(** [setStatus((prev) => `${prev}\n${msg}`)] *)
Definition addStatus (msg : string) (v : HookView) : HookView :=
  {| v_loading := v_loading v; v_imageDetails := v_imageDetails v;
     v_historyId := v_historyId v; v_generatedAt := v_generatedAt v;
     v_isUpscaled := v_isUpscaled v; v_isBlurred := v_isBlurred v;
     v_showInfo := v_showInfo v;
     v_status := v_status v +:+ newline +:+ msg;
     v_toasts := v_toasts v |}.

Definition toast (t : Toast) (v : HookView) : HookView :=
  {| v_loading := v_loading v; v_imageDetails := v_imageDetails v;
     v_historyId := v_historyId v; v_generatedAt := v_generatedAt v;
     v_isUpscaled := v_isUpscaled v; v_isBlurred := v_isBlurred v;
     v_showInfo := v_showInfo v; v_status := v_status v;
     v_toasts := v_toasts v ++ [t] |}.

Definition setLoading (b : bool) (v : HookView) : HookView :=
  {| v_loading := b; v_imageDetails := v_imageDetails v;
     v_historyId := v_historyId v; v_generatedAt := v_generatedAt v;
     v_isUpscaled := v_isUpscaled v; v_isBlurred := v_isBlurred v;
     v_showInfo := v_showInfo v; v_status := v_status v;
     v_toasts := v_toasts v |}.

(** [setHistoryId(id); setGeneratedAt(t); setImageDetails(d)] *)
Definition setGenerated (newId : string) (t : Z) (d : ImageDetails)
    (v : HookView) : HookView :=
  {| v_loading := v_loading v;
     v_imageDetails :=
       Some {| md_details := d; md_historyId := Some newId; md_generatedAt := Some t |};
     v_historyId := Some newId; v_generatedAt := Some t;
     v_isUpscaled := v_isUpscaled v; v_isBlurred := v_isBlurred v;
     v_showInfo := v_showInfo v; v_status := v_status v;
     v_toasts := v_toasts v |}.

(** [details.url = u] *)
Definition withUrl (u : string) (d : ImageDetails) : ImageDetails :=
  {| img_url := u; img_provider := img_provider d; img_model := img_model d;
     img_dimensions := img_dimensions d; img_duration := img_duration d;
     img_seed := img_seed d; img_steps := img_steps d;
     img_prompt := img_prompt d; img_negativePrompt := img_negativePrompt d |}.

(** The [data] of an image node that the mount effect and the generation
    read. *)
Record NodeData : Type := {
  nd_prompt : string;
  nd_width : Z;
  nd_height : Z;
  nd_seed : Z;
  nd_imageUrl : option string;
  nd_isLoading : bool;
}.

(** The flow-store action an image node ends its generation with. *)
Inductive StoreAction : Type :=
| UpdateImageGenerated (imageUrl duration : string)
| UpdateImageError (error : string).

(** ** The image node: one call, and the rotation loop around it *)

Section Code.

Context (env : Env).

(** [await fetch(...)]: the request goes out (it is appended to the log)
    and the backend answers it. *)
Definition doFetch (r : Request) (w : World) : FetchOutcome * World :=
  (fetch env (requests w) r, setRequests (requests w ++ [r]) w).

Definition MAX_RETRY_ATTEMPTS : nat := 10.

(** The request [generateImageApiSingle] builds. The auth header is
    spread in by [...(token && { [providerConfig.authHeader]: token })]:
    it is absent for [null] and for the empty string. *)
Definition singleRequest (prompt : string) (width height : Z)
    (provider : ProviderType) (token : option string) (model : string)
    (seed : Z) : Request :=
  {| endpoint := API_URL env +:+ "/api/generate";
     method := "POST";
     headers :=
       ("Content-Type", "application/json") ::
       match token with
       | Some t =>
           if truthy t
           then [(authHeader (PROVIDER_CONFIGS env provider), t)]
           else []
       | None => []
       end;
     body := GenerateBody provider model prompt None width height
               (Some 9) (Some seed) |}.

(** The part of [generateImageApiSingle] after [await fetch]: a rejected
    fetch propagates; then the checks on the text, on [res.ok] and on
    [data.imageDetails], in the order of the source. On a body that is
    [null] the first property read, [data.error] or [data.imageDetails],
    throws a [TypeError]. *)
Definition decodeSingle (o : FetchOutcome) : Outcome ImageDetails :=
  match o with
  | Rejected e => Thrown e
  | Resolved res =>
      match res_text res with
      | Unparsable text _ =>
          if negb (truthy text)
          then Thrown (Error "Empty response from server")
          else Thrown (Error ("Invalid response: " +:+ slice0 100 text))
      | Json (JsonNull typeError) =>
          (* [data.error], or [data.imageDetails], throws *)
          Thrown (Error typeError)
      | Json (JsonObj data) =>
          if negb (ok res)
          then Thrown (mkError (orElse (j_error data) "Failed to generate")
                               (Some (res_status res)))
          else match j_imageDetails data with
               | None => Thrown (Error "No image details returned")
               | Some d => Returned d
               end
      end
  end.

Definition generateImageApiSingle (prompt : string) (width height : Z)
    (provider : ProviderType) (token : option string) (model : string)
    (seed : Z) : M ImageDetails :=
  fun w =>
    let '(o, w') :=
      doFetch (singleRequest prompt width height provider token model seed) w in
    (decodeSingle o, w').

(** Modelled from the spec: [getNextAvailableToken] of
    [@/lib/tokenRotation], whose source is missing. Section 4.1: it
    returns the first secret, in the given order, whose credential is not
    marked exhausted, and none if all are exhausted. *)
Definition getNextAvailableToken (provider : ProviderType)
    (allTokens : list string) (w : World) : option string :=
  List.find (fun t => bool_decide ((provider, t) ∉ pool w)) allTokens.

(** Modelled from the spec: [markTokenExhausted] of
    [@/lib/tokenRotation], whose source is missing. Sections 4.1 and 5:
    it idempotently marks the credential exhausted, in a set keyed by
    provider and secret. *)
Definition markTokenExhausted (provider : ProviderType) (token : string)
    (w : World) : World :=
  setPool (fun s => {[ (provider, token) ]} ∪ s) w.

(** Modelled from the spec: [isQuotaError] of [@/lib/tokenRotation],
    whose source is missing. Section 4.2: the [quota] label of the error
    classifier, which the environment supplies. *)
Definition isQuotaError (err : JsError) : bool :=
  match classify env err with quota => true | _ => false end.

(** The [while (attempts < MAX_RETRY_ATTEMPTS)] loop of
    [generateImageWithRotation]. [attempts] grows by one on every
    iteration that continues, so the loop is a recursion on
    [remaining = MAX_RETRY_ATTEMPTS - attempts]; at [0] the loop exits
    and the function throws. *)
Fixpoint rotationLoop (remaining : nat) (prompt : string)
    (width height : Z) (provider : ProviderType) (allTokens : list string)
    (model : string) (seed : Z) (requiresAuth : bool) : M ImageDetails :=
  match remaining with
  | O => throw (Error "Maximum retry attempts reached")
  | S remaining' =>
      fun w =>
        let token := getNextAvailableToken provider allTokens w in
        if negb (truthyOpt token) then
          (* all tokens exhausted *)
          if negb requiresAuth
          then generateImageApiSingle prompt width height provider None model seed w
          else throw (Error "All API tokens exhausted. Quota will reset tomorrow.") w
        else
          tryCatch
            (generateImageApiSingle prompt width height provider token model seed)
            (fun err =>
               if isQuotaError err
               then fun w' =>
                      rotationLoop remaining' prompt width height provider
                        allTokens model seed requiresAuth
                        (match token with
                         | Some t => markTokenExhausted provider t w'
                         | None => w'
                         end)
               else throw err)
            w
  end.

Definition generateImageWithRotation (prompt : string) (width height : Z)
    (provider : ProviderType) (allTokens : list string) (model : string)
    (seed : Z) (requiresAuth : bool) : M ImageDetails :=
  match allTokens with
  | [] =>
      (* no tokens configured *)
      if requiresAuth
      then throw (Error "No API Token")
      else generateImageApiSingle prompt width height provider None model seed
  | _ :: _ =>
      rotationLoop MAX_RETRY_ATTEMPTS prompt width height provider allTokens
        model seed requiresAuth
  end.

(** ** The history store *)

Definition HISTORY_TTL_MS : Z := 24 * 60 * 60 * 1000.
Definition MAX_ITEMS : nat := 200.

(** [safeParseArray(value)]: nothing stored, text that is empty or does
    not parse, and a value that is not an array all give the empty
    array; of an array, the elements that are objects are kept. *)
Definition safeParseArray (value : option Stored) : list ImageHistoryItem :=
  match value with
  | None => []
  | Some Malformed => []
  | Some NonArray => []
  | Some (ArrayOf elems) =>
      omap (fun x => match x with Item i => Some i | NotAnObject => None end) elems
  end.

(** [writeHistory(items)]: [localStorage.setItem] inside a [try] whose
    [catch] ignores the error, so a refused write leaves the old value. *)
Definition writeHistory (items : list ImageHistoryItem) (w : World) : World :=
  if setItemAccepts env items
  then setLocalStorage (Some (ArrayOf (map Item items))) w
  else w.

(** [Date.now()] *)
Definition now (w : World) : Z * World := (Date_now env (ticks w), tick w).

(** [generateId()]: [crypto.randomUUID()] where there is one, else
    [`hist_${Date.now()}_${Math.random().toString(16).slice(2)}`]. *)
Definition generateId (w : World) : string * World :=
  if hasRandomUUID env
  then (random env (draws w), draw w)
  else
    let '(t, w1) := now w in
    ("hist_" +:+ pretty t +:+ "_" +:+ random env (draws w1), draw w1).

(** The test of the three [filter] calls:
    [typeof i.expiresAt !== 'number' || i.expiresAt > now]. *)
Definition unexpired (t : Z) (i : ImageHistoryItem) : bool :=
  match expiresAt i with
  | JsNumber e => t <? e
  | _ => true
  end.

Definition getHistory (w : World) : list ImageHistoryItem * World :=
  let items := safeParseArray (localStorage w) in
  let '(t, w1) := now w in
  let valid := List.filter (unexpired t) items in
  (valid,
   if negb (length valid =? length items)%nat then writeHistory valid w1 else w1).

Definition getAllHistoryIncludingExpired (w : World) : list ImageHistoryItem :=
  safeParseArray (localStorage w).

Definition saveToHistory (item : HistoryInput) (w : World) : string * World :=
  let '(t, w1) := now w in
  let '(newId, w2) := generateId w1 in
  let entry :=
    {| input := item; id := newId; timestamp := t;
       expiresAt := JsNumber (t + HISTORY_TTL_MS) |} in
  let '(prev, w3) := getHistory w2 in
  let next := take MAX_ITEMS (entry :: prev) in
  (id entry, writeHistory next w3).

Definition getHistoryById (target : string) (w : World) : option ImageHistoryItem :=
  List.find (fun i => String.eqb (id i) target) (getAllHistoryIncludingExpired w).

Definition deleteHistoryItem (target : string) (w : World) : World :=
  writeHistory
    (List.filter (fun i => negb (String.eqb (id i) target))
       (getAllHistoryIncludingExpired w))
    w.

Definition clearExpiredHistory (w : World) : Z * World :=
  let items := getAllHistoryIncludingExpired w in
  let '(t, w1) := now w in
  let valid := List.filter (unexpired t) items in
  (Z.of_nat (length items) - Z.of_nat (length valid), writeHistory valid w1).

(** [localStorage.removeItem(HISTORY_STORAGE_KEY)] *)
Definition clearAllHistory (w : World) : World := setLocalStorage None w.

(** ** The unified API client ([lib/api.ts]) *)


(** [parseErrorResponse(data)]: the fields of an object, and the bare
    unknown-error message for [null]. *)
Definition parseErrorResponse (data : JsonData) : ApiErrorInfo :=
  match data with
  | JsonObj errorData =>
      {| ei_message := orElse (j_error errorData) "Unknown error";
         ei_code := j_code errorData;
         ei_details := j_details errorData |}
  | JsonNull _ =>
      {| ei_message := "Unknown error"; ei_code := None; ei_details := None |}
  end.

(** [a || b] for two strings. *)
Definition orStr (a b : string) : string := if truthy a then a else b.

Definition getErrorMessage (errorInfo : ApiErrorInfo) : string :=
  let code := ei_code errorInfo in
  let message := ei_message errorInfo in
  let details := ei_details errorInfo in
  let detailsProvider := details ≫= d_provider in
  match code with
  | Some "AUTH_REQUIRED" =>
      "Please configure your " +:+ orElse detailsProvider "API" +:+ " token first"
  | Some "AUTH_INVALID" =>
      "Invalid " +:+ orElse detailsProvider "API"
        +:+ " token. Please check your token and try again."
  | Some "AUTH_EXPIRED" =>
      "Your " +:+ orElse detailsProvider "API"
        +:+ " token has expired. Please update it."
  | Some "RATE_LIMITED" =>
      "Too many requests. Please wait "
        +:+ match details ≫= d_retryAfter with
            | Some n => if (n =? 0) then "a moment" else pretty n +:+ " seconds"
            | None => "a moment"
            end
        +:+ " and try again."
  | Some "QUOTA_EXCEEDED" =>
      "API quota exceeded for " +:+ orElse detailsProvider "this provider"
        +:+ ". Please check your account."
  | Some "INVALID_PROMPT" =>
      orStr message "Invalid prompt. Please check your input."
  | Some "PROVIDER_ERROR" | Some "UPSTREAM_ERROR" =>
      orElse (details ≫= d_upstream)
        (orStr message "Provider service error. Please try again.")
  | Some "TIMEOUT" =>
      "Request timed out. " +:+ orElse detailsProvider "The service"
        +:+ " may be busy. Please try again."
  | _ => orStr message "An error occurred. Please try again."
  end.

(** The body of the [try] after both awaits: [response.json()] rejects
    on a text that does not parse; the [catch] turns any error into a
    failure carrying its message. *)
Definition decodeApi (o : FetchOutcome) : ApiResponse JsonData :=
  match o with
  | Rejected e => Failure (message e) None
  | Resolved res =>
      match res_text res with
      | Unparsable _ syntaxError => Failure syntaxError None
      | Json data =>
          if negb (ok res)
          then let errorInfo := parseErrorResponse data in
               Failure (getErrorMessage errorInfo) (Some errorInfo)
          else Success data
      end
  end.

Definition generateRequest (options : GenerateOptions) (token : TokenArg) : Request :=
  {| endpoint := API_URL env +:+ "/api/generate";
     method := "POST";
     headers :=
       ("Content-Type", "application/json") ::
       (if truthyArg token
        then [(authHeader (PROVIDER_CONFIGS env (o_provider options)), headerText token)]
        else []);
     body := GenerateBody (o_provider options)
               (orElse (o_model options) "z-image-turbo")
               (o_prompt options) (o_negativePrompt options)
               (o_width options) (o_height options)
               (o_steps options) (o_seed options) |}.

(** [generateImage(options, auth)], with [token = auth.token]. *)
Definition generateImage (options : GenerateOptions) (token : TokenArg)
    (w : World) : ApiResponse JsonData * World :=
  let '(o, w') := doFetch (generateRequest options token) w in
  (decodeApi o, w').

Definition upscaleRequest (target : string) (scale : Z) (hfToken : TokenArg) : Request :=
  {| endpoint := API_URL env +:+ "/api/upscale";
     method := "POST";
     headers :=
       ("Content-Type", "application/json") ::
       (if truthyArg hfToken then [("X-HF-Token", headerText hfToken)] else []);
     body := UpscaleBody target scale |}.

Definition upscaleImage (target : string) (scale : Z) (hfToken : TokenArg)
    (w : World) : ApiResponse JsonData * World :=
  let '(o, w') := doFetch (upscaleRequest target scale hfToken) w in
  (decodeApi o, w').

(** ** The image node: mount effect and generation *)

(** The guard of the mount effect: the three early returns, then
    [generatingRef.current = true] and the start of the async body.
    Gives the new value of the ref and whether a generation starts. *)
Definition mountEffect (hasHydrated : bool) (data : NodeData)
    (generatingRef : bool) : bool * bool :=
  if negb hasHydrated then (generatingRef, false)
  else if truthyOpt (nd_imageUrl data) || negb (nd_isLoading data)
  then (generatingRef, false)
  else if generatingRef then (generatingRef, false)
  else (true, true).

(** The effect run once per render of a list of renders: the number of
    generations started, and the ref at the end. *)
Fixpoint runEffects (renders : list (bool * NodeData)) (generatingRef : bool)
    : nat * bool :=
  match renders with
  | [] => (O, generatingRef)
  | (hasHydrated, data) :: rest =>
      let '(ref', started) := mountEffect hasHydrated data generatingRef in
      let '(n, ref'') := runEffects rest ref' in
      ((if started then S n else n), ref'')
  end.

(** The async body of the effect. The provider, the validated model and
    the token array come from [loadSettings], [getModelsByProvider] and
    [loadTokensArray], which are not among the sources. *)
Definition nodeGenerate (data : NodeData) (provider : ProviderType)
    (selectedModel : string) (tokens : list string) (w : World)
    : StoreAction * World :=
  let requiresAuth := requiresAuth (PROVIDER_CONFIGS env provider) in
  match generateImageWithRotation (nd_prompt data) (nd_width data)
          (nd_height data) provider tokens selectedModel (nd_seed data)
          requiresAuth w with
  | (Returned imageDetails, w1) =>
      let '(_, w2) :=
        saveToHistory
          {| h_url := img_url imageDetails;
             h_prompt := nd_prompt data;
             h_negativePrompt := Some "";
             h_providerId := provider;
             h_providerName := img_provider imageDetails;
             h_modelId := selectedModel;
             h_modelName := img_model imageDetails;
             h_width := nd_width data;
             h_height := nd_height data;
             h_steps := img_steps imageDetails;
             h_seed := img_seed imageDetails;
             h_duration := Some (img_duration imageDetails);
             h_source := Some flow |} w1 in
      (UpdateImageGenerated (img_url imageDetails) (img_duration imageDetails), w2)
  | (Thrown err, w1) => (UpdateImageError (message err), w1)
  end.

(** ** The generator hook: [handleGenerate] *)

(** [handleGenerate] up to its first suspension: the credential check,
    the resets, and the call of [generateImage], whose request leaves
    before the handler suspends. Gives [None] when the handler returned
    early, else the result the pending call will resolve to. The hook
    passes [{ tokens: ... }] as the second argument; [generateImage]
    reads [auth.token], which is undefined there. *)
Definition handleGenerate_begin (i : HookInputs) (v : HookView) (w : World)
    : HookView * World * option (ApiResponse JsonData) :=
  let providerConfig := PROVIDER_CONFIGS env (in_provider i) in
  if requiresAuth providerConfig && (length (in_providerTokens i) =? 0)%nat
  then
    (toast (ToastError ("Please configure your " +:+ name providerConfig
                          +:+ " token first")) v, w, None)
  else
    let v1 :=
      {| v_loading := true; v_imageDetails := None; v_historyId := None;
         v_generatedAt := None; v_isUpscaled := false; v_isBlurred := false;
         v_showInfo := false; v_status := "Initializing...";
         v_toasts := v_toasts v |} in
    let v2 := addStatus ("Sending request to " +:+ name providerConfig +:+ "...") v1 in
    let '(result, w1) := generateImage (hookOptions i) TokenUndefined w in
    (v2, w1, Some result).

(** The [catch] block. *)
Definition handleGenerate_catch (msg : string) (v : HookView) : HookView :=
  toast (ToastError msg) (addStatus ("Error: " +:+ msg) v).

(** The object the handler passes to [saveToHistory]. *)
Definition homeHistoryInput (i : HookInputs) (details : ImageDetails) : HistoryInput :=
  {| h_url := img_url details;
     h_prompt := img_prompt details;
     h_negativePrompt := Some (img_negativePrompt details);
     h_providerId := in_provider i;
     h_providerName := img_provider details;
     h_modelId := in_model i;
     h_modelName := img_model details;
     h_width := in_width i;
     h_height := in_height i;
     h_steps := img_steps details;
     h_seed := img_seed details;
     h_duration := Some (img_duration details);
     h_source := Some home |}.

(** From [const now = Date.now()] to [toast.success]. *)
Definition handleGenerate_save (i : HookInputs) (details : ImageDetails)
    (v : HookView) (w : World) : HookView * World :=
  let '(t, w1) := now w in
  let '(newHistoryId, w2) := saveToHistory (homeHistoryInput i details) w1 in
  (toast (ToastSuccess "Image generated!") (setGenerated newHistoryId t details v), w2).

(** The third argument of the hook's [upscaleImage] calls:
    [hfTokens.length > 0 ? hfTokens : undefined]. *)
Definition hfTokenArg (hfTokens : list string) : TokenArg :=
  match hfTokens with [] => TokenUndefined | _ :: _ => TokenArray hfTokens end.

(** The rest of [handleGenerate], from the result of [generateImage] to
    the [finally]. Reading a property of a result whose [data] is [null]
    throws inside the [try], so the [catch] block runs with the message of
    the [TypeError]. *)
Definition handleGenerate_resume (i : HookInputs)
    (result : ApiResponse JsonData) (v : HookView) (w : World)
    : HookView * World :=
  let '(v', w') :=
    match result with
    | Failure error _ => (handleGenerate_catch error v, w)
    | Success (JsonNull typeError) =>
        (* [result.data.imageDetails] throws, into the [catch] *)
        (handleGenerate_catch typeError v, w)
    | Success (JsonObj data) =>
        match j_imageDetails data with
        | None => (handleGenerate_catch "No image returned" v, w)
        | Some details =>
            if negb (truthy (img_url details))
            then (handleGenerate_catch "No image returned" v, w)
            else
              let v1 := addStatus ("Image generated in " +:+ img_duration details +:+ "!") v in
              if in_upscale8k i && String.prefix "http" (img_url details)
              then
                let v2 := addStatus "Upscaling to 8K..." v1 in
                let '(upResult, w1) :=
                  upscaleImage (img_url details) 4 (hfTokenArg (in_hfTokens i)) w in
                match upResult with
                | Success (JsonNull typeError) =>
                    (* [upResult.data.url] throws, into the [catch]:
                       nothing is shown and nothing is saved *)
                    (handleGenerate_catch typeError v2, w1)
                | Success (JsonObj up) =>
                    if truthyOpt (j_url up)
                    then handleGenerate_save i
                           (withUrl (default "" (j_url up)) details)
                           (addStatus "8K upscale complete!" v2) w1
                    else handleGenerate_save i details
                           (toast (ToastError "8K upscale failed, showing original image")
                              (addStatus "8K upscale failed: No URL" v2)) w1
                | Failure error _ =>
                    handleGenerate_save i details
                      (toast (ToastError "8K upscale failed, showing original image")
                         (addStatus ("8K upscale failed: " +:+ error) v2)) w1
                end
              else handleGenerate_save i details v1 w
        end
    end in
  (setLoading false v', w').

(** One uninterrupted run of the handler. *)
Definition handleGenerate (i : HookInputs) (v : HookView) (w : World)
    : HookView * World :=
  match handleGenerate_begin i v w with
  | (v1, w1, None) => (v1, w1)
  | (v1, w1, Some result) => handleGenerate_resume i result v1 w1
  end.

End Code.

(** ** More of the history store *)

(** The result of [getHistoryStats]. *)
Record HistoryStats : Type := {
  st_total : Z;
  st_expired : Z;
  st_valid : Z;
}.

(** The [isExpired] memo of the [HistoryItem] component,
    [Date.now() > item.expiresAt], for an [expiresAt] that is a number, as
    the type of the item declares. *)
Definition isExpired (t : Z) (expiresAtNumber : Z) : bool := expiresAtNumber <? t.

(** ** More of the generator hook *)

(** [setImageDetails((prev) => (prev ? { ...prev, url: u } : null))] *)
Definition setImageUrl (u : string) (v : HookView) : HookView :=
  {| v_loading := v_loading v;
     v_imageDetails :=
       match v_imageDetails v with
       | Some prev =>
           Some {| md_details := withUrl u (md_details prev);
                   md_historyId := md_historyId prev;
                   md_generatedAt := md_generatedAt prev |}
       | None => None
       end;
     v_historyId := v_historyId v; v_generatedAt := v_generatedAt v;
     v_isUpscaled := v_isUpscaled v; v_isBlurred := v_isBlurred v;
     v_showInfo := v_showInfo v; v_status := v_status v;
     v_toasts := v_toasts v |}.

Definition setIsUpscaled (b : bool) (v : HookView) : HookView :=
  {| v_loading := v_loading v; v_imageDetails := v_imageDetails v;
     v_historyId := v_historyId v; v_generatedAt := v_generatedAt v;
     v_isUpscaled := b; v_isBlurred := v_isBlurred v;
     v_showInfo := v_showInfo v; v_status := v_status v;
     v_toasts := v_toasts v |}.

(** The object [handleLoadFromHistory] passes to [setImageDetails]. *)
Definition loadedDetails (item : ImageHistoryItem) : ImageDetailsWithMeta :=
  {| md_details :=
       {| img_url := h_url (input item);
          img_provider := h_providerName (input item);
          img_model := h_modelName (input item);
          img_dimensions :=
            pretty (h_width (input item)) +:+ " x " +:+ pretty (h_height (input item));
          img_duration := orElse (h_duration (input item)) "";
          img_seed := h_seed (input item);
          img_steps := h_steps (input item);
          img_prompt := h_prompt (input item);
          img_negativePrompt := orElse (h_negativePrompt (input item)) "" |};
     md_historyId := Some (id item);
     md_generatedAt := Some (timestamp item) |}.

(** [handleLoadFromHistory(item)]. The setters of the form fields change
    what the handlers read next; the token list of the provider now
    selected is [parseTokens(tokens[provider])], given here by
    [tokensOf]. *)
Definition handleLoadFromHistory (tokensOf : ProviderType -> list string)
    (item : ImageHistoryItem) (i : HookInputs) (v : HookView)
    : HookInputs * HookView :=
  ({| in_provider := h_providerId (input item);
      in_providerTokens := tokensOf (h_providerId (input item));
      in_hfTokens := in_hfTokens i;
      in_prompt := h_prompt (input item);
      in_negativePrompt := orElse (h_negativePrompt (input item)) "";
      in_width := h_width (input item);
      in_height := h_height (input item);
      in_steps := h_steps (input item);
      in_model := h_modelId (input item);
      in_upscale8k := in_upscale8k i |},
   toast (ToastSuccess "Loaded from history")
     {| v_loading := v_loading v;
        v_imageDetails := Some (loadedDetails item);
        v_historyId := Some (id item);
        v_generatedAt := Some (timestamp item);
        v_isUpscaled := false; v_isBlurred := false; v_showInfo := false;
        v_status := v_status v; v_toasts := v_toasts v |}).

(** The object the image node passes to [saveToHistory]. *)
Definition flowHistoryInput (data : NodeData) (provider : ProviderType)
    (selectedModel : string) (imageDetails : ImageDetails) : HistoryInput :=
  {| h_url := img_url imageDetails;
     h_prompt := nd_prompt data;
     h_negativePrompt := Some "";
     h_providerId := provider;
     h_providerName := img_provider imageDetails;
     h_modelId := selectedModel;
     h_modelName := img_model imageDetails;
     h_width := nd_width data;
     h_height := nd_height data;
     h_steps := img_steps imageDetails;
     h_seed := img_seed imageDetails;
     h_duration := Some (img_duration imageDetails);
     h_source := Some flow |}.

Section Handlers.

Context (env : Env).

(** [getHistoryStats()] *)
Definition getHistoryStats (w : World) : HistoryStats * World :=
  let items := getAllHistoryIncludingExpired w in
  let '(t, w1) := now env w in
  let valid := List.filter (unexpired t) items in
  ({| st_total := Z.of_nat (length items);
      st_valid := Z.of_nat (length valid);
      st_expired := Z.of_nat (length items) - Z.of_nat (length valid) |}, w1).

(** [handleUpscale] up to its suspension: the guard, then
    [setIsUpscaling(true)], the status line and the call of
    [upscaleImage]. [isUpscaling] is the state cell the guard reads.
    Gives the new [isUpscaling], and [None] when the guard returned, else
    the result the pending call resolves to. *)
Definition handleUpscale_begin (i : HookInputs) (isUpscaling : bool)
    (v : HookView) (w : World)
    : bool * HookView * World * option (ApiResponse JsonData) :=
  match v_imageDetails v with
  | None => (isUpscaling, v, w, None)
  | Some imageDetails =>
      if negb (truthy (img_url (md_details imageDetails)))
         || isUpscaling || v_isUpscaled v
      then (isUpscaling, v, w, None)
      else
        let v1 := addStatus "Upscaling to 4x..." v in
        let '(result, w1) :=
          upscaleImage env (img_url (md_details imageDetails)) 4
            (hfTokenArg (in_hfTokens i)) w in
        (true, v1, w1, Some result)
  end.

(** What reading [result.data.url] throws, if it does: the handler has no
    [try], so its promise rejects with this error. *)
Definition handleUpscale_thrown (result : ApiResponse JsonData) : option JsError :=
  match result with
  | Success (JsonNull typeError) => Some (Error typeError)
  | _ => None
  end.

(** The rest of [handleUpscale], which gives the new [isUpscaling] and
    the new view. It ends with [setIsUpscaling(false)], unless reading
    [result.data.url] throws: then nothing after the call runs, no
    status line, no toast, and [isUpscaling] stays as [handleUpscale_begin]
    set it. *)
Definition handleUpscale_resume (result : ApiResponse JsonData) (v : HookView)
    : bool * HookView :=
  match result with
  | Success (JsonNull _) => (true, v)
  | Success (JsonObj data) =>
      (false,
       if truthyOpt (j_url data)
       then toast (ToastSuccess "Image upscaled to 4x!")
              (addStatus "4x upscale complete!"
                 (setIsUpscaled true (setImageUrl (default "" (j_url data)) v)))
       else toast (ToastError "Upscale failed")
              (addStatus "Upscale failed: No URL returned" v))
  | Failure error _ =>
      (false,
       toast (ToastError "Upscale failed")
         (addStatus ("Upscale failed: " +:+ error) v))
  end.

(** One uninterrupted run of [handleUpscale]. *)
Definition handleUpscale (i : HookInputs) (isUpscaling : bool) (v : HookView)
    (w : World) : bool * HookView * World :=
  match handleUpscale_begin i isUpscaling v w with
  | (isUpscaling', v1, w1, None) => (isUpscaling', v1, w1)
  | (_, v1, w1, Some result) =>
      let '(isUpscaling', v2) := handleUpscale_resume result v1 in
      (isUpscaling', v2, w1)
  end.

End Handlers.

(** The message [handleGenerate] ends in its [catch] with, if the result
    of [generateImage] sends it there: the error of a failure, the
    message of the [TypeError] when the data is [null], or the no-image
    message when the details or their url are missing. *)
Definition generationError (result : ApiResponse JsonData) : option string :=
  match result with
  | Failure error _ => Some error
  | Success (JsonNull typeError) => Some typeError
  | Success (JsonObj data) =>
      match j_imageDetails data with
      | None => Some "No image returned"
      | Some details =>
          if truthy (img_url details) then None else Some "No image returned"
      end
  end.

(** ** Sample environments and worlds *)

Module Samples.

Definition config : ProviderConfig :=
  {| name := "HuggingFace"; requiresAuth := true; authHeader := "X-HF-Token" |}.

Definition openConfig : ProviderConfig :=
  {| name := "HuggingFace"; requiresAuth := false; authHeader := "X-HF-Token" |}.

Definition errorBody (msg : string) : ResponseText :=
  Json (JsonObj {| j_error := Some msg; j_code := None; j_details := None;
                   j_imageDetails := None; j_url := None |}).

Definition picture : ImageDetails :=
  {| img_url := "https://img.example/1.png"; img_provider := "HuggingFace";
     img_model := "z-image-turbo"; img_dimensions := "1024 x 1024";
     img_duration := "2.0s"; img_seed := 7; img_steps := 9;
     img_prompt := "a cat"; img_negativePrompt := "" |}.

Definition pictureBody : ResponseText :=
  Json (JsonObj {| j_error := None; j_code := None; j_details := None;
                   j_imageDetails := Some picture; j_url := None |}).

(** 429 is the quota signal, 401 the rejected credential. *)
Definition byStatus (e : JsError) : ErrorClass :=
  match status e with
  | Some 429 => quota
  | Some 401 => auth
  | Some _ => fatal
  | None => transient
  end.

(** A backend that answers every request with the same response. *)
Definition constantEnv (cfg : ProviderConfig) (r : Response) : Env :=
  {| API_URL := "";
     PROVIDER_CONFIGS := fun _ => cfg;
     fetch := fun _ _ => Resolved r;
     classify := byStatus;
     Date_now := fun k => 1000 + Z.of_nat k;
     hasRandomUUID := true;
     random := fun k => "id-" +:+ pretty k;
     setItemAccepts := fun _ => true |}.

Definition quotaEnv : Env :=
  constantEnv config {| res_status := 429; res_text := errorBody "quota exceeded" |}.

Definition authEnv : Env :=
  constantEnv openConfig {| res_status := 401; res_text := errorBody "bad token" |}.

Definition okEnv : Env :=
  constantEnv openConfig {| res_status := 200; res_text := pictureBody |}.

(** Generation answers with a picture, upscaling with a 500. *)
Definition upscaleDownEnv : Env :=
  {| API_URL := "";
     PROVIDER_CONFIGS := fun _ => openConfig;
     fetch := fun _ r =>
       match body r with
       | GenerateBody _ _ _ _ _ _ _ _ =>
           Resolved {| res_status := 200; res_text := pictureBody |}
       | UpscaleBody _ _ =>
           Resolved {| res_status := 500; res_text := errorBody "upscaler down" |}
       end;
     classify := byStatus;
     Date_now := fun k => 1000 + Z.of_nat k;
     hasRandomUUID := true;
     random := fun k => "id-" +:+ pretty k;
     setItemAccepts := fun _ => true |}.

Definition emptyWorld : World :=
  {| pool := ∅; requests := []; localStorage := None; ticks := 0; draws := 0 |}.

Definition inputs : HookInputs :=
  {| in_provider := huggingface; in_providerTokens := ["hf_a"];
     in_hfTokens := ["hf_a"]; in_prompt := "a cat"; in_negativePrompt := "";
     in_width := 1024; in_height := 1024; in_steps := 9;
     in_model := "z-image-turbo"; in_upscale8k := true |}.

Definition noTokenInputs : HookInputs :=
  {| in_provider := huggingface; in_providerTokens := [];
     in_hfTokens := []; in_prompt := "a cat"; in_negativePrompt := "";
     in_width := 1024; in_height := 1024; in_steps := 9;
     in_model := "z-image-turbo"; in_upscale8k := false |}.

Definition idleView : HookView :=
  {| v_loading := false; v_imageDetails := None; v_historyId := None;
     v_generatedAt := None; v_isUpscaled := false; v_isBlurred := false;
     v_showInfo := false; v_status := "Ready."; v_toasts := [] |}.

Definition historyInput : HistoryInput :=
  {| h_url := "https://img.example/1.png"; h_prompt := "a cat";
     h_negativePrompt := None; h_providerId := huggingface;
     h_providerName := "HuggingFace"; h_modelId := "z-image-turbo";
     h_modelName := "Z-Image Turbo"; h_width := 1024; h_height := 1024;
     h_steps := 9; h_seed := 7; h_duration := Some "2.0s";
     h_source := Some home |}.

(** A stored entry with the given id and [expiresAt]. *)
Definition stored (name : string) (e : JsValue) : ImageHistoryItem :=
  {| input := historyInput; id := name; timestamp := 0; expiresAt := e |}.

Definition worldWith (items : list ImageHistoryItem) : World :=
  {| pool := ∅; requests := []; localStorage := Some (ArrayOf (map Item items));
     ticks := 0; draws := 0 |}.

(** [n] live entries, ids ["0"], ["1"], ... from the front. *)
Definition liveEntries (n : nat) : list ImageHistoryItem :=
  map (fun k : nat => stored (pretty k) (JsNumber 5000)) (seq 0 n).

(** A node waiting for its image. *)
Definition pendingNode : NodeData :=
  {| nd_prompt := "a cat"; nd_width := 1024; nd_height := 1024; nd_seed := 7;
     nd_imageUrl := None; nd_isLoading := true |}.

(** An entry without a usable [expiresAt]. *)
Definition undated : ImageHistoryItem := stored "undated" JsUndefined.

(** A backend whose storage refuses every write. *)
Definition fullStorageEnv : Env :=
  {| API_URL := "";
     PROVIDER_CONFIGS := fun _ => openConfig;
     fetch := fun _ _ => Resolved {| res_status := 200; res_text := pictureBody |};
     classify := byStatus;
     Date_now := fun k => 1000 + Z.of_nat k;
     hasRandomUUID := false;
     random := fun k => "r" +:+ pretty k;
     setItemAccepts := fun _ => false |}.

(** The first call is refused for quota, every later one answers with a
    picture. *)
Definition quotaOnceEnv : Env :=
  {| API_URL := "";
     PROVIDER_CONFIGS := fun _ => config;
     fetch := fun hist _ =>
       match hist with
       | [] => Resolved {| res_status := 429; res_text := errorBody "quota exceeded" |}
       | _ :: _ => Resolved {| res_status := 200; res_text := pictureBody |}
       end;
     classify := byStatus;
     Date_now := fun k => 1000 + Z.of_nat k;
     hasRandomUUID := true;
     random := fun k => "id-" +:+ pretty k;
     setItemAccepts := fun _ => true |}.

(** Generation and upscaling both answer; the upscaler gives a new url. *)
Definition upscaleOkEnv : Env :=
  {| API_URL := "";
     PROVIDER_CONFIGS := fun _ => openConfig;
     fetch := fun _ r =>
       match body r with
       | GenerateBody _ _ _ _ _ _ _ _ =>
           Resolved {| res_status := 200; res_text := pictureBody |}
       | UpscaleBody _ _ =>
           Resolved {| res_status := 200;
                       res_text :=
                         Json (JsonObj
                           {| j_error := None; j_code := None; j_details := None;
                              j_imageDetails := None;
                              j_url := Some "https://img.example/1-4x.png" |}) |}
       end;
     classify := byStatus;
     Date_now := fun k => 1000 + Z.of_nat k;
     hasRandomUUID := true;
     random := fun k => "id-" +:+ pretty k;
     setItemAccepts := fun _ => true |}.

(** Generation answers with a picture; the upscaler answers 200 with the
    body [null]. *)
Definition upscaleNullEnv : Env :=
  {| API_URL := "";
     PROVIDER_CONFIGS := fun _ => openConfig;
     fetch := fun _ r =>
       match body r with
       | GenerateBody _ _ _ _ _ _ _ _ =>
           Resolved {| res_status := 200; res_text := pictureBody |}
       | UpscaleBody _ _ =>
           Resolved {| res_status := 200;
                       res_text :=
                         Json (JsonNull "Cannot read properties of null (reading 'url')") |}
       end;
     classify := byStatus;
     Date_now := fun k => 1000 + Z.of_nat k;
     hasRandomUUID := true;
     random := fun k => "id-" +:+ pretty k;
     setItemAccepts := fun _ => true |}.

(** A world whose stored array holds an element that is not an object. *)
Definition junkWorld : World :=
  {| pool := ∅; requests := [];
     localStorage := Some (ArrayOf [NotAnObject; Item (stored "new" (JsNumber 5000))]);
     ticks := 0; draws := 0 |}.

(** A world whose stored value does not parse. *)
Definition corruptWorld : World :=
  {| pool := ∅; requests := []; localStorage := Some Malformed;
     ticks := 0; draws := 0 |}.

(** The view after a generation that gave [picture]. *)
Definition shownView : HookView :=
  {| v_loading := false;
     v_imageDetails :=
       Some {| md_details := picture; md_historyId := Some "id-0";
               md_generatedAt := Some 1000 |};
     v_historyId := Some "id-0"; v_generatedAt := Some 1000;
     v_isUpscaled := false; v_isBlurred := false; v_showInfo := false;
     v_status := "Ready."; v_toasts := [] |}.

End Samples.

(** ** Conditions on the backend *)

(** Every call is answered with an error that the classifier labels
    [quota]. *)
Definition allQuota (env : Env) : Prop :=
  forall hist r, exists e,
    decodeSingle (fetch env hist r) = Thrown e /\ classify env e = quota.

(** The messages of the two ways the rotation gives up. *)
Definition exhaustedMessage : string :=
  "All API tokens exhausted. Quota will reset tomorrow.".
Definition maxAttemptsMessage : string := "Maximum retry attempts reached".

(** ** Conditions on the storage, and what an append works with *)

(** [localStorage.setItem] takes every value. *)
Definition storageReliable (env : Env) : Prop :=
  forall items, setItemAccepts env items = true.

(** The entry [saveToHistory] builds: the object literal of the source,
    with the clock reading and the id it draws. *)
Definition newEntry (env : Env) (item : HistoryInput) (w : World) : ImageHistoryItem :=
  let '(t, w1) := now env w in
  let '(newId, _) := generateId env w1 in
  {| input := item; id := newId; timestamp := t;
     expiresAt := JsNumber (t + HISTORY_TTL_MS) |}.

(** The world in which [saveToHistory] calls [getHistory]: after its own
    clock reading and the drawing of the id. *)
Definition beforeSweep (env : Env) (w : World) : World :=
  snd (generateId env (snd (now env w))).

(** The entries that [saveToHistory] finds alive: what its call of
    [getHistory] returns. *)
Definition retained (env : Env) (w : World) : list ImageHistoryItem :=
  fst (getHistory env (beforeSweep env w)).

(** ** Fresh ids *)

(** The random source never yields the same text twice: the UUIDs of
    [crypto.randomUUID()], or the digits of [Math.random()], do not
    repeat. *)
Definition randomNeverRepeats (env : Env) : Prop :=
  forall j k, random env j = random env k -> j = k.

(** Every id in the store was assigned by [generateId] at an earlier
    random draw. *)
Definition idsFromEarlierDraws (env : Env) (w : World) : Prop :=
  forall i, In i (getAllHistoryIncludingExpired w) ->
    exists w0, (draws w0 < draws w)%nat /\ id i = fst (generateId env w0).

(** Whether a character occurs in a string. *)
Fixpoint mentions (c : Ascii.ascii) (s : string) : bool :=
  match s with
  | EmptyString => false
  | String a s' => Ascii.eqb a c || mentions c s'
  end.

(** ** A failed upscale *)

(** The [else] branch after the upscale is taken: the call failed, or it
    answered with an object without a url. (On a [null] answer the test
    [upResult.success && upResult.data.url] throws and neither branch is
    taken.) *)
Definition upscaleFailed (upResult : ApiResponse JsonData) : bool :=
  match upResult with
  | Success (JsonNull _) => false
  | Success (JsonObj up) => negb (truthyOpt (j_url up))
  | Failure _ _ => true
  end.

(** [upResult.success ? 'No URL' : upResult.error] *)
Definition upscaleFailureText (upResult : ApiResponse JsonData) : string :=
  match upResult with
  | Success _ => "No URL"
  | Failure error _ => error
  end.

(** * Properties of the rotation loop *)

Section RotationProperties.

Context (env : Env).
Implicit Types (w : World) (allTokens : list string) (provider : ProviderType).

Lemma generateImageApiSingle_eq prompt width height provider token model seed w :
  generateImageApiSingle env prompt width height provider token model seed w =
  (decodeSingle (fetch env (requests w)
                   (singleRequest env prompt width height provider token model seed)),
   setRequests
     (requests w ++ [singleRequest env prompt width height provider token model seed]) w).
Proof. reflexivity. Qed.

(** Secrets already marked exhausted are passed over. *)
Lemma getNextAvailableToken_skip provider done rest w :
  Forall (fun t => (provider, t) ∈ pool w) done ->
  getNextAvailableToken provider (done ++ rest) w =
  getNextAvailableToken provider rest w.
Proof.
  unfold getNextAvailableToken.
  induction 1 as [|t done Ht _ IH]; [reflexivity|].
  cbn. rewrite bool_decide_eq_false_2; [exact IH | intros Hn; exact (Hn Ht)].
Qed.

Lemma getNextAvailableToken_head provider t rest w :
  (provider, t) ∉ pool w ->
  getNextAvailableToken provider (t :: rest) w = Some t.
Proof.
  intros Ht. unfold getNextAvailableToken. cbn.
  rewrite bool_decide_eq_true_2; [reflexivity | exact Ht].
Qed.

Lemma getNextAvailableToken_none provider done w :
  Forall (fun t => (provider, t) ∈ pool w) done ->
  getNextAvailableToken provider done w = None.
Proof.
  intros H. rewrite <- (app_nil_r done).
  rewrite getNextAvailableToken_skip by exact H. reflexivity.
Qed.

Lemma isQuotaError_quota e : classify env e = quota -> isQuotaError env e = true.
Proof. unfold isQuotaError. intros ->. reflexivity. Qed.

Lemma isQuotaError_auth e : classify env e = auth -> isQuotaError env e = false.
Proof. unfold isQuotaError. intros ->. reflexivity. Qed.

(** The loop when every call is a quota failure: [done] are the secrets
    already used up, [rest] the ones still to try. It tries the first
    [remaining] of [rest], in order, marks each exhausted, and gives up
    with the message that tells which of the pool and the budget ran out. *)
Lemma rotationLoop_all_quota prompt width height provider model seed :
  allQuota env ->
  forall remaining done rest w,
    Forall (fun t => (provider, t) ∈ pool w) done ->
    NoDup rest ->
    Forall (fun t => truthy t = true) rest ->
    Forall (fun t => (provider, t) ∉ pool w) rest ->
    exists w',
      rotationLoop env remaining prompt width height provider (done ++ rest)
        model seed true w
      = (Thrown (Error (if (length rest <? remaining)%nat
                        then exhaustedMessage else maxAttemptsMessage)), w')
      /\ requests w' =
         requests w ++
         map (fun t => singleRequest env prompt width height provider (Some t) model seed)
             (take remaining rest)
      /\ pool w' = list_to_set (map (pair provider) (take remaining rest)) ∪ pool w.
Proof.
  intros Hq remaining.
  induction remaining as [|n IH]; intros done rest w Hdone Hnd Htruthy Hfresh.
  - exists w. cbn. rewrite take_0. cbn. rewrite app_nil_r.
    split; [reflexivity|]. split; [reflexivity|]. set_solver.
  - destruct rest as [|t rest].
    + exists w. cbn [rotationLoop].
      rewrite app_nil_r, getNextAvailableToken_none by exact Hdone.
      cbn. rewrite app_nil_r.
      split; [reflexivity|]. split; [reflexivity|]. set_solver.
    + apply NoDup_cons in Hnd as [Hnotin Hnd].
      apply Forall_cons in Htruthy as [Ht Htruthy].
      apply Forall_cons in Hfresh as [Htfresh Hfresh].
      cbn [rotationLoop].
      rewrite getNextAvailableToken_skip by exact Hdone.
      rewrite getNextAvailableToken_head by exact Htfresh.
      cbn [truthyOpt]. rewrite Ht. cbn [negb].
      unfold tryCatch. rewrite generateImageApiSingle_eq.
      destruct (Hq (requests w)
                  (singleRequest env prompt width height provider (Some t) model seed))
        as (e & -> & Hclass).
      rewrite (isQuotaError_quota _ Hclass).
      set (w1 := markTokenExhausted _ _ _).
      destruct (IH (done ++ [t]) rest w1) as (w' & Hrun & Hreq & Hpool).
      * apply Forall_app. split.
        -- eapply Forall_impl; [exact Hdone|]. intros x Hx. cbn. set_solver.
        -- constructor; [cbn; set_solver | constructor].
      * exact Hnd.
      * exact Htruthy.
      * apply Forall_forall. intros x Hx.
        rewrite Forall_forall in Hfresh. specialize (Hfresh x Hx).
        cbn. intros Hin. apply elem_of_union in Hin as [Hin|Hin]; [|tauto].
        apply elem_of_singleton in Hin. inversion Hin; subst. tauto.
      * exists w'. rewrite <- app_assoc in Hrun. cbn [app] in Hrun.
        split; [exact Hrun|].
        split.
        -- rewrite Hreq. cbn. rewrite <- app_assoc. reflexivity.
        -- rewrite Hpool. cbn. set_solver.
Qed.

(** C1 (as amended). For a non-empty list of N pairwise distinct,
    non-empty secrets, none of them marked exhausted at the start, and
    with [requiresAuth = true]: if every upstream call fails with a
    quota-classified error, [generateImageWithRotation] makes exactly
    [min N MAX_RETRY_ATTEMPTS] upstream calls, one per secret in list
    order, marks each tried secret exhausted, and throws the
    all-tokens-exhausted error when [N < MAX_RETRY_ATTEMPTS] and the
    maximum-attempts error otherwise. Its outcome is a failure, so no
    call succeeded. *)
Theorem rotation_all_quota prompt width height provider allTokens model seed w :
  allTokens <> [] ->
  NoDup allTokens ->
  Forall (fun t => truthy t = true) allTokens ->
  Forall (fun t => (provider, t) ∉ pool w) allTokens ->
  allQuota env ->
  let tried := take MAX_RETRY_ATTEMPTS allTokens in
  exists w',
    generateImageWithRotation env prompt width height provider allTokens
      model seed true w
    = (Thrown (Error (if (length allTokens <? MAX_RETRY_ATTEMPTS)%nat
                      then exhaustedMessage else maxAttemptsMessage)), w')
    /\ length tried = Nat.min (length allTokens) MAX_RETRY_ATTEMPTS
    /\ requests w' =
       requests w ++
       map (fun t => singleRequest env prompt width height provider (Some t) model seed)
           tried
    /\ pool w' = list_to_set (map (pair provider) tried) ∪ pool w.
Proof.
  intros Hne Hnd Htruthy Hfresh Hq tried.
  destruct (rotationLoop_all_quota prompt width height provider model seed Hq
              MAX_RETRY_ATTEMPTS [] allTokens w)
    as (w' & Hrun & Hreq & Hpool); try assumption; [constructor|].
  exists w'. cbn [app] in Hrun.
  split.
  - destruct allTokens as [|t rest]; [contradiction|]. exact Hrun.
  - split; [|split; assumption].
    subst tried. rewrite length_take. lia.
Qed.

(** C2. With [requiresAuth = true] and no credential configured, the
    rotation throws the no-token error and the hook's handler raises the
    configure-your-token toast and returns; in both the world, and with
    it the log of requests, is left as it was: no network call. *)
Theorem no_credential_no_call prompt width height provider model seed i v w :
  requiresAuth (PROVIDER_CONFIGS env (in_provider i)) = true ->
  in_providerTokens i = [] ->
  generateImageWithRotation env prompt width height provider [] model seed true w
  = (Thrown (Error "No API Token"), w)
  /\ handleGenerate env i v w
     = (toast (ToastError ("Please configure your "
                             +:+ name (PROVIDER_CONFIGS env (in_provider i))
                             +:+ " token first")) v, w).
Proof.
  intros Hauth Hnone. split; [reflexivity|].
  unfold handleGenerate, handleGenerate_begin.
  rewrite Hauth, Hnone. reflexivity.
Qed.

Lemma singleton_split (r0 : Request) pre r post :
  [r0] = pre ++ r :: post -> pre = [] /\ r = r0 /\ post = [].
Proof.
  destruct pre as [|x pre]; cbn [app]; intros H.
  - apply (f_equal (fun l => (hd r0 l, tl l))) in H. cbn in H.
    injection H as H1 H2. auto.
  - apply (f_equal (fun l => length l)) in H. cbn in H.
    rewrite length_app in H. cbn in H. lia.
Qed.

(** A call that fails with an error that is not a quota error is the last
    call of the loop, and its error is what the loop throws. *)
Lemma rotationLoop_non_quota_last prompt width height provider allTokens model seed
    requiresAuth :
  forall remaining w out w',
    rotationLoop env remaining prompt width height provider allTokens model seed
      requiresAuth w = (out, w') ->
    exists new,
      requests w' = requests w ++ new
      /\ forall pre r post e,
           new = pre ++ r :: post ->
           decodeSingle (fetch env (requests w ++ pre) r) = Thrown e ->
           isQuotaError env e = false ->
           post = [] /\ out = Thrown e.
Proof.
  pose proof singleton_split as Hone.
  induction remaining as [|n IH]; intros w out w' Hrun; cbn [rotationLoop] in Hrun.
  - inversion Hrun; subst. exists []. rewrite app_nil_r. split; [reflexivity|].
    intros [|? ?] ? ? ? H; discriminate H.
  - destruct (truthyOpt (getNextAvailableToken provider allTokens w)) eqn:Htok;
      cbn [negb] in Hrun.
    + unfold tryCatch in Hrun. rewrite generateImageApiSingle_eq in Hrun.
      set (r0 := singleRequest env prompt width height provider
                   (getNextAvailableToken provider allTokens w) model seed) in *.
      destruct (decodeSingle (fetch env (requests w) r0)) as [d|err] eqn:Hdec.
      * inversion Hrun; subst. exists [r0]. split; [reflexivity|].
        intros pre r post e Hsplit Hthrown _.
        apply Hone in Hsplit as (-> & -> & ->).
        rewrite app_nil_r in Hthrown. congruence.
      * destruct (isQuotaError env err) eqn:Hquota.
        -- apply IH in Hrun as (new & Hreq & Hlast).
           exists (r0 :: new). split.
           ++ rewrite Hreq. destruct (getNextAvailableToken provider allTokens w);
                cbn; rewrite <- app_assoc; reflexivity.
           ++ intros pre r post e Hsplit Hthrown Hnq.
              destruct pre as [|x pre]; cbn in Hsplit; inversion Hsplit; subst.
              ** rewrite app_nil_r in Hthrown. congruence.
              ** apply (Hlast pre r post e); [reflexivity| |exact Hnq].
                 replace (requests _ ++ pre) with (requests w ++ r0 :: pre);
                   [exact Hthrown|].
                 destruct (getNextAvailableToken provider allTokens w);
                   cbn; rewrite <- app_assoc; reflexivity.
        -- inversion Hrun; subst. exists [r0]. split; [reflexivity|].
           intros pre r post e Hsplit Hthrown _.
           apply Hone in Hsplit as (-> & -> & ->).
           rewrite app_nil_r in Hthrown. split; [reflexivity | congruence].
    + destruct requiresAuth; cbn [negb] in Hrun.
      * inversion Hrun; subst. exists []. rewrite app_nil_r. split; [reflexivity|].
        intros [|? ?] ? ? ? H; discriminate H.
      * rewrite generateImageApiSingle_eq in Hrun. inversion Hrun; subst.
        eexists [_]. split; [reflexivity|].
        intros pre r post e Hsplit Hthrown _.
        apply Hone in Hsplit as (-> & -> & ->).
        rewrite app_nil_r in Hthrown. split; [reflexivity | congruence].
Qed.

(** C3. In every run of [generateImageWithRotation], a call made with a
    secret [s] that fails with an auth-classified error is the last call
    of the run: nothing is sent after it, so no second attempt is made
    with a different secret, and the run fails at once with that very
    error. (The run takes the fail-immediately alternative whether or not
    the provider permits anonymous access.) *)
Theorem auth_failure_stops_rotation prompt width height provider allTokens model seed
    requiresAuth w out w' pre s post e :
  let r := singleRequest env prompt width height provider (Some s) model seed in
  generateImageWithRotation env prompt width height provider allTokens model seed
    requiresAuth w = (out, w') ->
  requests w' = requests w ++ pre ++ r :: post ->
  decodeSingle (fetch env (requests w ++ pre) r) = Thrown e ->
  classify env e = auth ->
  post = [] /\ out = Thrown e.
Proof.
  intros r Hrun Hreq Hthrown Hauth.
  apply isQuotaError_auth in Hauth.
  unfold generateImageWithRotation in Hrun.
  destruct allTokens as [|t rest].
  - destruct requiresAuth.
    + inversion Hrun; subst.
      rewrite <- (app_nil_r (requests w')) in Hreq at 1.
      apply app_inv_head in Hreq. destruct pre; discriminate Hreq.
    + rewrite generateImageApiSingle_eq in Hrun. inversion Hrun; subst.
      cbn [requests setRequests] in Hreq. apply app_inv_head in Hreq.
      apply singleton_split in Hreq as (-> & Hr & ->).
      rewrite app_nil_r in Hthrown.
      split; [reflexivity|]. rewrite <- Hr. exact Hthrown.
  - apply rotationLoop_non_quota_last in Hrun as (new & Hnew & Hlast).
    rewrite Hnew in Hreq. apply app_inv_head in Hreq.
    exact (Hlast pre r post e Hreq Hthrown Hauth).
Qed.

(** C9. With [requiresAuth = false] and no credential, the rotation makes
    exactly one call, the anonymous one: a single request is added to the
    log, it carries the content-type header only, and the outcome of the
    run is the outcome of that call, success or failure, as it is. *)
Theorem anonymous_single_call prompt width height provider model seed w :
  let r := singleRequest env prompt width height provider None model seed in
  generateImageWithRotation env prompt width height provider [] model seed false w
  = (decodeSingle (fetch env (requests w) r), setRequests (requests w ++ [r]) w)
  /\ headers r = [("Content-Type", "application/json")]
  /\ generateImageWithRotation env prompt width height provider [] model seed false w
     = generateImageApiSingle env prompt width height provider None model seed w.
Proof. repeat split. Qed.

End RotationProperties.

(** ** The rotation properties at sample inputs *)

Lemma allQuota_quotaEnv : allQuota Samples.quotaEnv.
Proof. intros hist r. eexists. split; reflexivity. Qed.

Lemma rotation_all_quota_witness :
  allQuota Samples.quotaEnv
  /\ exists w',
       generateImageWithRotation Samples.quotaEnv "a cat" 1024 1024 huggingface
         ["t1"; "t2"] "z-image-turbo" 7 true Samples.emptyWorld
       = (Thrown (Error exhaustedMessage), w')
       /\ length (requests w') = 2%nat
       /\ pool w' = {[ (huggingface, "t1"); (huggingface, "t2") ]}.
Proof.
  split; [exact allQuota_quotaEnv|].
  destruct (rotation_all_quota Samples.quotaEnv "a cat" 1024 1024 huggingface
              ["t1"; "t2"] "z-image-turbo" 7 Samples.emptyWorld)
    as (w' & Hrun & Hlen & Hreq & Hpool).
  - discriminate.
  - repeat (apply NoDup_cons_2; [set_solver|]). apply NoDup_nil_2.
  - repeat constructor.
  - repeat constructor; cbn; set_solver.
  - exact allQuota_quotaEnv.
  - exists w'. split; [exact Hrun|]. split.
    + rewrite Hreq. reflexivity.
    + rewrite Hpool. cbn. set_solver.
Defined.

(** C1 as stated fails on a list that names a secret twice: the pool is
    keyed by secret, so after the first quota failure both entries count
    as exhausted, and the run stops after one call, not [min 2 10 = 2]. *)
Lemma rotation_duplicate_secret_counterexample :
  allQuota Samples.quotaEnv
  /\ let allTokens := ["t1"; "t1"] in
     let run :=
       generateImageWithRotation Samples.quotaEnv "a cat" 1024 1024 huggingface
         allTokens "z-image-turbo" 7 true Samples.emptyWorld in
     fst run = Thrown (Error exhaustedMessage)
     /\ length (requests (snd run)) = 1%nat
     /\ Nat.min (length allTokens) MAX_RETRY_ATTEMPTS = 2%nat.
Proof. split; [exact allQuota_quotaEnv|]. vm_compute. repeat split. Qed.

Lemma no_credential_no_call_witness :
  requiresAuth (PROVIDER_CONFIGS Samples.quotaEnv (in_provider Samples.noTokenInputs)) = true
  /\ in_providerTokens Samples.noTokenInputs = []
  /\ generateImageWithRotation Samples.quotaEnv "a cat" 1024 1024 huggingface []
       "z-image-turbo" 7 true Samples.emptyWorld
     = (Thrown (Error "No API Token"), Samples.emptyWorld)
  /\ requests (snd (handleGenerate Samples.quotaEnv Samples.noTokenInputs
                      Samples.idleView Samples.emptyWorld)) = [].
Proof.
  split; [reflexivity|]. split; [reflexivity|].
  destruct (no_credential_no_call Samples.quotaEnv "a cat" 1024 1024 huggingface
              "z-image-turbo" 7 Samples.noTokenInputs Samples.idleView
              Samples.emptyWorld) as [Hrot Hhook]; [reflexivity | reflexivity |].
  split; [exact Hrot|]. rewrite Hhook. reflexivity.
Defined.

Lemma auth_failure_stops_rotation_witness :
  let r := singleRequest Samples.authEnv "a cat" 1024 1024 huggingface (Some "t1")
             "z-image-turbo" 7 in
  let e := mkError "bad token" (Some 401) in
  let run :=
    generateImageWithRotation Samples.authEnv "a cat" 1024 1024 huggingface
      ["t1"; "t2"] "z-image-turbo" 7 false Samples.emptyWorld in
  requests (snd run) = requests Samples.emptyWorld ++ [] ++ r :: []
  /\ decodeSingle (fetch Samples.authEnv (requests Samples.emptyWorld ++ []) r) = Thrown e
  /\ classify Samples.authEnv e = auth
  /\ fst run = Thrown e.
Proof.
  intros r e run.
  split; [reflexivity|]. split; [reflexivity|]. split; [reflexivity|].
  apply (auth_failure_stops_rotation Samples.authEnv "a cat" 1024 1024 huggingface
           ["t1"; "t2"] "z-image-turbo" 7 false Samples.emptyWorld (fst run) (snd run)
           [] "t1" [] e); reflexivity.
Defined.

(** * Properties of the history store *)

Section HistoryProperties.

Context (env : Env).
Implicit Types (w : World) (items : list ImageHistoryItem).

Lemma safeParseArray_items items :
  safeParseArray (Some (ArrayOf (map Item items))) = items.
Proof.
  cbn. induction items as [|i items IH]; [reflexivity|].
  cbn. f_equal. exact IH.
Qed.

Lemma filter_length_same {A} (f : A -> bool) (l : list A) :
  length (List.filter f l) = length l -> List.filter f l = l.
Proof.
  induction l as [|x l IH]; [reflexivity|]. cbn.
  destruct (f x); cbn; intros H.
  - f_equal. apply IH. lia.
  - pose proof (List.filter_length_le f l). lia.
Qed.

Lemma getAll_writeHistory_accepted items w :
  setItemAccepts env items = true ->
  getAllHistoryIncludingExpired (writeHistory env items w) = items.
Proof.
  intros H. unfold writeHistory, getAllHistoryIncludingExpired. rewrite H.
  apply safeParseArray_items.
Qed.

Lemma getAll_tick w : getAllHistoryIncludingExpired (tick w) = getAllHistoryIncludingExpired w.
Proof. reflexivity. Qed.

Lemma getAll_draw w : getAllHistoryIncludingExpired (draw w) = getAllHistoryIncludingExpired w.
Proof. reflexivity. Qed.

Lemma getAll_generateId w :
  getAllHistoryIncludingExpired (snd (generateId env w)) = getAllHistoryIncludingExpired w.
Proof. unfold generateId. destruct (hasRandomUUID env); reflexivity. Qed.

Lemma getAll_beforeSweep w :
  getAllHistoryIncludingExpired (beforeSweep env w) = getAllHistoryIncludingExpired w.
Proof. unfold beforeSweep. rewrite getAll_generateId. reflexivity. Qed.

(** What [getHistory] returns. *)
Lemma getHistory_fst w :
  fst (getHistory env w) =
  List.filter (unexpired (Date_now env (ticks w))) (getAllHistoryIncludingExpired w).
Proof. reflexivity. Qed.

(** A raw read after [getHistory] gives what [getHistory] returned, when
    the storage takes the write of the sweep. *)
Lemma getHistory_persisted w :
  setItemAccepts env (fst (getHistory env w)) = true ->
  getAllHistoryIncludingExpired (snd (getHistory env w)) = fst (getHistory env w).
Proof.
  intros Hacc. rewrite getHistory_fst in *. unfold getHistory. cbn [now snd fst].
  fold (getAllHistoryIncludingExpired w).
  set (valid := List.filter _ _) in *.
  destruct (length valid =? length (getAllHistoryIncludingExpired w))%nat eqn:Hlen; cbn [negb].
  - apply Nat.eqb_eq in Hlen. rewrite getAll_tick.
    symmetry. apply filter_length_same. exact Hlen.
  - apply getAll_writeHistory_accepted. exact Hacc.
Qed.

Lemma getHistory_ticks w : ticks (snd (getHistory env w)) = S (ticks w).
Proof.
  unfold getHistory. cbn [now snd].
  destruct (negb _); [|reflexivity].
  unfold writeHistory. destruct (setItemAccepts env _); reflexivity.
Qed.

(** [saveToHistory], step by step. *)
Lemma saveToHistory_eq item w :
  saveToHistory env item w =
  (id (newEntry env item w),
   writeHistory env (take MAX_ITEMS (newEntry env item w :: retained env w))
     (snd (getHistory env (beforeSweep env w)))).
Proof.
  unfold saveToHistory, newEntry, retained, beforeSweep.
  cbn [now snd fst].
  destruct (generateId env (tick w)) as [newId w2]. cbn [snd fst id].
  destruct (getHistory env w2) as [prev w3]. reflexivity.
Qed.

Lemma saveToHistory_stored item w :
  storageReliable env ->
  getAllHistoryIncludingExpired (snd (saveToHistory env item w)) =
  take MAX_ITEMS (newEntry env item w :: retained env w).
Proof.
  intros Hrel. rewrite saveToHistory_eq. cbn [snd].
  apply getAll_writeHistory_accepted, Hrel.
Qed.

Lemma saveToHistory_ticks item w :
  ticks (snd (saveToHistory env item w)) = S (ticks (beforeSweep env w)).
Proof.
  rewrite saveToHistory_eq. cbn [snd]. unfold writeHistory.
  destruct (setItemAccepts env _); cbn; apply getHistory_ticks.
Qed.

(** The store never touches the log of requests. *)
Lemma requests_writeHistory items w :
  requests (writeHistory env items w) = requests w.
Proof. unfold writeHistory. destruct (setItemAccepts env items); reflexivity. Qed.

Lemma requests_getHistory w : requests (snd (getHistory env w)) = requests w.
Proof.
  unfold getHistory. cbn [now snd].
  destruct (negb _); [rewrite requests_writeHistory|]; reflexivity.
Qed.

Lemma requests_beforeSweep w : requests (beforeSweep env w) = requests w.
Proof.
  unfold beforeSweep, generateId. destruct (hasRandomUUID env); reflexivity.
Qed.

Lemma requests_saveToHistory item w :
  requests (snd (saveToHistory env item w)) = requests w.
Proof.
  rewrite saveToHistory_eq. cbn [snd].
  rewrite requests_writeHistory, requests_getHistory, requests_beforeSweep.
  reflexivity.
Qed.

Lemma newEntry_fields item w :
  input (newEntry env item w) = item
  /\ id (newEntry env item w) = fst (generateId env (tick w))
  /\ timestamp (newEntry env item w) = Date_now env (ticks w)
  /\ expiresAt (newEntry env item w) =
     JsNumber (Date_now env (ticks w) + HISTORY_TTL_MS).
Proof.
  unfold newEntry. cbn [now].
  destruct (generateId env (tick w)) as [newId w2]. repeat split.
Qed.

(** The digits of a number hold no underscore. *)
Lemma pretty_N_go_mentions x s :
  mentions "_"%char (pretty_N_go x s) = mentions "_"%char s.
Proof.
  revert s. induction (N.lt_wf_0 x) as [x _ IH]. intros s.
  destruct (N.eq_dec x 0%N) as [->|Hpos]; [reflexivity|].
  rewrite pretty_N_go_step by lia.
  rewrite IH by (apply N.div_lt; lia).
  cbn [mentions]. unfold pretty_N_char.
  repeat case_match; reflexivity.
Qed.

Lemma pretty_Z_mentions (t : Z) : mentions "_"%char (pretty t) = false.
Proof.
  assert (Hpos : forall p : positive, mentions "_"%char (pretty p) = false).
  { intros p. unfold pretty, pretty_positive, pretty, pretty_N.
    case_decide; [reflexivity|]. apply pretty_N_go_mentions. }
  destruct t as [|p|p]; [reflexivity | apply Hpos |].
  change (pretty (Z.neg p)) with ("-" +:+ pretty p).
  change (mentions "_"%char (String "-"%char (pretty p)) = false).
  cbn [mentions]. rewrite Hpos. reflexivity.
Qed.

(** Two texts that agree have the same part after the first underscore. *)
Lemma append_underscore_inj p0 p1 r0 r1 :
  mentions "_"%char p0 = false -> mentions "_"%char p1 = false ->
  p0 +:+ "_" +:+ r0 = p1 +:+ "_" +:+ r1 -> r0 = r1.
Proof.
  revert p1. induction p0 as [|a p0 IH]; intros [|b p1] H0 H1 Heq.
  - change (String "_"%char r0 = String "_"%char r1) in Heq. congruence.
  - change (String "_"%char r0 = String b (p1 +:+ "_" +:+ r1)) in Heq.
    injection Heq as <- _. cbn in H1. discriminate H1.
  - change (String a (p0 +:+ "_" +:+ r0) = String "_"%char r1) in Heq.
    injection Heq as -> _. cbn in H0. discriminate H0.
  - change (String a (p0 +:+ "_" +:+ r0) = String b (p1 +:+ "_" +:+ r1)) in Heq.
    injection Heq as _ Heq.
    cbn [mentions] in H0, H1.
    apply orb_false_iff in H0 as [_ H0]. apply orb_false_iff in H1 as [_ H1].
    exact (IH p1 H0 H1 Heq).
Qed.

Lemma draws_now w : draws (snd (now env w)) = draws w.
Proof. reflexivity. Qed.

Lemma draws_generateId w : draws (snd (generateId env w)) = S (draws w).
Proof. unfold generateId. destruct (hasRandomUUID env); reflexivity. Qed.

Lemma draws_writeHistory items w : draws (writeHistory env items w) = draws w.
Proof. unfold writeHistory. destruct (setItemAccepts env items); reflexivity. Qed.

Lemma draws_getHistory w : draws (snd (getHistory env w)) = draws w.
Proof.
  unfold getHistory. cbn [now snd].
  destruct (negb _); [rewrite draws_writeHistory|]; reflexivity.
Qed.

(** Every append uses up one random draw. *)
Lemma draws_saveToHistory item w :
  draws (snd (saveToHistory env item w)) = S (draws w).
Proof.
  rewrite saveToHistory_eq. cbn [snd].
  rewrite draws_writeHistory, draws_getHistory.
  unfold beforeSweep. rewrite draws_generateId. reflexivity.
Qed.

(** With a random source that does not repeat, [generateId] gives
    different ids at different draws, by the UUID as by the text built
    from the clock and [Math.random()]. *)
Lemma generateId_distinct w0 w1 :
  randomNeverRepeats env ->
  draws w0 <> draws w1 ->
  fst (generateId env w0) <> fst (generateId env w1).
Proof.
  intros Hrandom Hdraws Heq. apply Hdraws. apply Hrandom.
  unfold generateId in Heq. destruct (hasRandomUUID env); [exact Heq|].
  cbn [now fst snd draws tick] in Heq.
  change (String "h"%char (String "i"%char (String "s"%char (String "t"%char (String "_"%char
            (pretty (Date_now env (ticks w0)) +:+ "_" +:+ random env (draws w0))))))
          = String "h"%char (String "i"%char (String "s"%char (String "t"%char (String "_"%char
            (pretty (Date_now env (ticks w1)) +:+ "_" +:+ random env (draws w1)))))))
    in Heq.
  injection Heq as Heq.
  exact (append_underscore_inj _ _ _ _ (pretty_Z_mentions _) (pretty_Z_mentions _) Heq).
Qed.

(** Sweeping and deleting keep the ids of the store among those assigned
    by earlier draws. *)
Lemma idsFromEarlierDraws_kept w w' :
  idsFromEarlierDraws env w ->
  (draws w <= draws w')%nat ->
  (forall i, In i (getAllHistoryIncludingExpired w') ->
             In i (getAllHistoryIncludingExpired w)) ->
  idsFromEarlierDraws env w'.
Proof.
  intros Hinv Hdraws Hsub i Hi.
  destruct (Hinv i (Hsub i Hi)) as (w0 & Hlt & Hid).
  exists w0. split; [lia | exact Hid].
Qed.

Lemma In_take {A} (x : A) n (l : list A) : In x (take n l) -> In x l.
Proof.
  revert l. induction n as [|n IH]; intros [|y l]; cbn; try tauto.
  intros [->|H]; [left; reflexivity | right; exact (IH l H)].
Qed.

Lemma retained_stored w i :
  In i (retained env w) -> In i (getAllHistoryIncludingExpired w).
Proof.
  unfold retained. rewrite getHistory_fst, getAll_beforeSweep.
  intros Hi. apply List.filter_In in Hi as [Hi _]. exact Hi.
Qed.

(** The id of a new entry is fresh: with a random source that does not
    repeat, and a store whose ids all come from earlier draws, no stored
    entry has the id [saveToHistory] assigns, and the store after the
    append is again one whose ids come from earlier draws. *)
Lemma saveToHistory_fresh_id item w :
  randomNeverRepeats env ->
  idsFromEarlierDraws env w ->
  (forall i, In i (getAllHistoryIncludingExpired w) ->
             id i <> id (newEntry env item w))
  /\ idsFromEarlierDraws env (snd (saveToHistory env item w)).
Proof.
  intros Hrandom Hinv.
  destruct (newEntry_fields item w) as (_ & Hid & _).
  split.
  - intros i Hi. destruct (Hinv i Hi) as (w0 & Hlt & Hw0).
    rewrite Hw0, Hid. apply generateId_distinct; [exact Hrandom|].
    cbn [draws tick]. lia.
  - intros i Hi.
    assert (Hcases : i = newEntry env item w \/ In i (getAllHistoryIncludingExpired w)).
    { rewrite saveToHistory_eq in Hi. cbn [snd] in Hi.
      unfold writeHistory in Hi.
      destruct (setItemAccepts env _).
      - unfold getAllHistoryIncludingExpired in Hi.
        cbn [localStorage setLocalStorage] in Hi. rewrite safeParseArray_items in Hi.
        change (take MAX_ITEMS (newEntry env item w :: retained env w))
          with (newEntry env item w :: take (MAX_ITEMS - 1) (retained env w)) in Hi.
        destruct Hi as [<-|Hi]; [left; reflexivity|].
        right. apply retained_stored. eapply In_take. exact Hi.
      - right.
        assert (Hsub : forall w0 j, In j (getAllHistoryIncludingExpired (snd (getHistory env w0)))
                                    -> In j (getAllHistoryIncludingExpired w0)).
        { intros w0 j Hj. unfold getHistory in Hj. cbn [now snd] in Hj.
          destruct (negb _); [|exact Hj].
          unfold writeHistory in Hj.
          destruct (setItemAccepts env _); [|exact Hj].
          unfold getAllHistoryIncludingExpired in Hj.
          cbn [localStorage setLocalStorage] in Hj. rewrite safeParseArray_items in Hj.
          apply List.filter_In in Hj as [Hj _]. exact Hj. }
        apply Hsub in Hi. rewrite getAll_beforeSweep in Hi. exact Hi. }
    rewrite draws_saveToHistory.
    destruct Hcases as [->|Hold].
    + exists (tick w). split; [cbn; lia | exact Hid].
    + destruct (Hinv i Hold) as (w0 & Hlt & Hw0).
      exists w0. split; [lia | exact Hw0].
Qed.

(** C6. [saveToHistory] gives the new entry the id drawn by
    [generateId], which it returns, and the current clock reading as
    [timestamp]; its [expiresAt] is that reading plus [HISTORY_TTL_MS],
    so the two differ by the 24-hour TTL exactly; the entry is stored in
    front of the entries found alive; and a [getHistory] that follows
    before the TTL has run out returns it first. The id is fresh: with a
    random source that does not repeat and a store whose ids were all
    assigned by earlier draws, no entry stored before, and no other
    entry listed after, has the id of the new entry, and the store after
    the append is again such a store, so the ids of successive appends
    are all different. The storage is taken to accept the writes. *)
Theorem saveToHistory_then_getHistory item w :
  storageReliable env ->
  let t := Date_now env (ticks w) in
  let saved := saveToHistory env item w in
  let listed := fst (getHistory env (snd saved)) in
  Date_now env (ticks (snd saved)) < t + HISTORY_TTL_MS ->
  exists entry rest,
    listed = entry :: rest
    /\ getAllHistoryIncludingExpired (snd saved) =
       entry :: take (MAX_ITEMS - 1) (retained env w)
    /\ fst saved = id entry
    /\ id entry = fst (generateId env (tick w))
    /\ input entry = item
    /\ timestamp entry = t
    /\ expiresAt entry = JsNumber (t + HISTORY_TTL_MS)
    /\ (t + HISTORY_TTL_MS) - timestamp entry = HISTORY_TTL_MS
    /\ HISTORY_TTL_MS = 86400000
    /\ (randomNeverRepeats env -> idsFromEarlierDraws env w ->
        (forall i, In i (getAllHistoryIncludingExpired w) -> id i <> id entry)
        /\ Forall (fun i => id i <> id entry) rest
        /\ idsFromEarlierDraws env (snd saved)).
Proof.
  intros Hrel t saved listed Hsoon.
  destruct (newEntry_fields item w) as (Hinput & Hid & Hts & Hexp).
  assert (Hstored : getAllHistoryIncludingExpired (snd saved) =
                    newEntry env item w :: take (MAX_ITEMS - 1) (retained env w)).
  { subst saved. rewrite saveToHistory_stored by exact Hrel. reflexivity. }
  exists (newEntry env item w).
  exists (List.filter (unexpired (Date_now env (ticks (snd saved))))
            (take (MAX_ITEMS - 1) (retained env w))).
  split.
  { subst listed. rewrite getHistory_fst, Hstored. cbn [List.filter].
    unfold unexpired at 1. rewrite Hexp.
    fold t. apply Z.ltb_lt in Hsoon. rewrite Hsoon. reflexivity. }
  split; [exact Hstored|].
  split; [subst saved; rewrite saveToHistory_eq; reflexivity|].
  split; [exact Hid|]. split; [exact Hinput|]. split; [exact Hts|].
  split; [exact Hexp|]. split; [rewrite Hts; fold t; lia|].
  split; [reflexivity|].
  intros Hrandom Hinv.
  destruct (saveToHistory_fresh_id item w Hrandom Hinv) as [Hfresh Hnext].
  split; [exact Hfresh|]. split; [|exact Hnext].
  apply Forall_forall. intros i Hi. apply Hfresh.
  apply list_elem_of_In in Hi. apply List.filter_In in Hi as [Hi _].
  apply retained_stored. eapply In_take. exact Hi.
Qed.

(** C7. An entry of the store whose [expiresAt] is a number not above the
    clock reading of [getHistory] is absent from what [getHistory]
    returns; the store is rewritten to hold exactly the returned
    entries, so a raw read afterwards does not show the entry either.
    The storage is taken to accept that write. *)
Theorem getHistory_sweeps_expired entry e w :
  In entry (getAllHistoryIncludingExpired w) ->
  expiresAt entry = JsNumber e ->
  e <= Date_now env (ticks w) ->
  setItemAccepts env (fst (getHistory env w)) = true ->
  ~ In entry (fst (getHistory env w))
  /\ localStorage (snd (getHistory env w)) =
     Some (ArrayOf (map Item (fst (getHistory env w))))
  /\ ~ In entry (getAllHistoryIncludingExpired (snd (getHistory env w))).
Proof.
  intros Hin Hexp Hpast Hacc.
  assert (Hout : ~ In entry (fst (getHistory env w))).
  { rewrite getHistory_fst. intros Hf. apply List.filter_In in Hf as [_ Hf].
    unfold unexpired in Hf. rewrite Hexp in Hf. apply Z.ltb_lt in Hf. lia. }
  split; [exact Hout|]. split.
  - assert (Hlt : (length (fst (getHistory env w))
                   < length (getAllHistoryIncludingExpired w))%nat).
    { destruct (Nat.eq_dec (length (fst (getHistory env w)))
                  (length (getAllHistoryIncludingExpired w))) as [Heq|Hne].
      - rewrite getHistory_fst in Heq, Hout.
        apply filter_length_same in Heq. rewrite Heq in Hout. contradiction.
      - rewrite getHistory_fst in *.
        pose proof (List.filter_length_le
                      (unexpired (Date_now env (ticks w)))
                      (getAllHistoryIncludingExpired w)). lia. }
    rewrite getHistory_fst in Hlt, Hacc |- *.
    unfold getHistory. cbn [now snd fst].
    fold (getAllHistoryIncludingExpired w).
    set (valid := List.filter _ _) in *.
    replace (length valid =? length (getAllHistoryIncludingExpired w))%nat
      with false by (symmetry; apply Nat.eqb_neq; lia).
    cbn [negb]. unfold writeHistory. rewrite Hacc. reflexivity.
  - rewrite getHistory_persisted by exact Hacc. exact Hout.
Qed.

(** C8. When the append finds 200 entries alive, [saveToHistory] stores
    the new entry followed by the first 199 of them: the last one, the
    oldest, is dropped, and exactly 200 are stored. The storage is taken
    to accept the writes. *)
Theorem append_at_capacity item w :
  storageReliable env ->
  length (retained env w) = MAX_ITEMS ->
  exists kept oldest,
    retained env w = kept ++ [oldest]
    /\ getAllHistoryIncludingExpired (snd (saveToHistory env item w)) =
       newEntry env item w :: kept
    /\ length (getAllHistoryIncludingExpired (snd (saveToHistory env item w))) =
       MAX_ITEMS.
Proof.
  intros Hrel Hlen.
  destruct (exists_last (l := retained env w)) as (kept & oldest & Hsplit).
  { intros Hnil. rewrite Hnil in Hlen. discriminate Hlen. }
  assert (Hkept : length kept = (MAX_ITEMS - 1)%nat).
  { rewrite Hsplit, length_app in Hlen. cbn [length] in Hlen. lia. }
  assert (Hstored : getAllHistoryIncludingExpired (snd (saveToHistory env item w)) =
                    newEntry env item w :: kept).
  { rewrite saveToHistory_stored by exact Hrel.
    change (take MAX_ITEMS (newEntry env item w :: retained env w))
      with (newEntry env item w :: take (MAX_ITEMS - 1) (retained env w)).
    rewrite Hsplit, <- Hkept, take_app_length. reflexivity. }
  exists kept, oldest. split; [exact Hsplit|]. split; [exact Hstored|].
  rewrite Hstored. cbn [length]. rewrite Hkept. reflexivity.
Qed.

(** C10 (as amended). A stored entry whose [expiresAt] is missing or not
    a number is never removed by the expiry sweeps: whatever the clock
    reads, [getHistory] returns it and leaves it in the store, and
    [clearExpiredHistory] leaves it in the store. An append keeps it too
    as long as fewer than 200 entries are found alive. *)
Theorem malformed_expiry_survives_sweeps entry item w :
  In entry (getAllHistoryIncludingExpired w) ->
  typeofNumber (expiresAt entry) = false ->
  In entry (fst (getHistory env w))
  /\ In entry (getAllHistoryIncludingExpired (snd (getHistory env w)))
  /\ In entry (getAllHistoryIncludingExpired (snd (clearExpiredHistory env w)))
  /\ ((length (retained env w) < MAX_ITEMS)%nat ->
      In entry (getAllHistoryIncludingExpired (snd (saveToHistory env item w)))).
Proof.
  intros Hin Hty.
  assert (Halive : forall t, unexpired t entry = true).
  { intros t. unfold unexpired. destruct (expiresAt entry); try reflexivity.
    discriminate Hty. }
  assert (Hkept : forall t l, In entry l -> In entry (List.filter (unexpired t) l)).
  { intros t l Hl. apply List.filter_In. split; [exact Hl | apply Halive]. }
  assert (Hwrite : forall l w0,
             In entry l -> In entry (getAllHistoryIncludingExpired w0) ->
             In entry (getAllHistoryIncludingExpired (writeHistory env l w0))).
  { intros l w0 Hl Hw0. unfold writeHistory.
    destruct (setItemAccepts env l) eqn:Hacc; [|exact Hw0].
    unfold getAllHistoryIncludingExpired. cbn [localStorage setLocalStorage].
    rewrite safeParseArray_items. exact Hl. }
  assert (Hget : forall w0, In entry (getAllHistoryIncludingExpired w0) ->
             In entry (fst (getHistory env w0))
             /\ In entry (getAllHistoryIncludingExpired (snd (getHistory env w0)))).
  { intros w0 Hw0. split; [rewrite getHistory_fst; apply Hkept, Hw0|].
    unfold getHistory. cbn [now snd].
    destruct (negb _); [|exact Hw0].
    apply Hwrite; [apply Hkept, Hw0 | exact Hw0]. }
  destruct (Hget w Hin) as [Hlisted Hstill].
  split; [exact Hlisted|]. split; [exact Hstill|]. split.
  - unfold clearExpiredHistory. cbn [now snd].
    apply Hwrite; [apply Hkept, Hin | exact Hin].
  - intros Hroom. rewrite saveToHistory_eq. cbn [snd].
    assert (Hw2 : In entry (getAllHistoryIncludingExpired (beforeSweep env w))).
    { rewrite getAll_beforeSweep. exact Hin. }
    destruct (Hget _ Hw2) as [Hret Hafter].
    apply Hwrite; [|exact Hafter].
    change (take MAX_ITEMS (newEntry env item w :: retained env w))
      with (newEntry env item w :: take (MAX_ITEMS - 1) (retained env w)).
    right. rewrite take_ge by lia. exact Hret.
Qed.

End HistoryProperties.

(** ** The history properties at sample inputs *)

Lemma storageReliable_okEnv : storageReliable Samples.okEnv.
Proof. intros items. reflexivity. Qed.

Lemma randomNeverRepeats_okEnv : randomNeverRepeats Samples.okEnv.
Proof.
  intros j k H.
  change (String "i"%char (String "d"%char (String "-"%char (pretty j)))
          = String "i"%char (String "d"%char (String "-"%char (pretty k)))) in H.
  injection H as H. exact (pretty_nat_inj _ _ H).
Qed.

Lemma idsFromEarlierDraws_empty env w :
  getAllHistoryIncludingExpired w = [] -> idsFromEarlierDraws env w.
Proof. intros Hnone i Hi. rewrite Hnone in Hi. destruct Hi. Qed.

Lemma saveToHistory_then_getHistory_witness :
  let w1 := snd (saveToHistory Samples.okEnv Samples.historyInput Samples.emptyWorld) in
  let saved := saveToHistory Samples.okEnv Samples.historyInput w1 in
  storageReliable Samples.okEnv
  /\ Date_now Samples.okEnv (ticks (snd saved))
     < Date_now Samples.okEnv (ticks w1) + HISTORY_TTL_MS
  /\ randomNeverRepeats Samples.okEnv
  /\ idsFromEarlierDraws Samples.okEnv w1
  /\ (id <$> getAllHistoryIncludingExpired w1) = ["id-0"]
  /\ exists entry rest,
       fst (getHistory Samples.okEnv (snd saved)) = entry :: rest
       /\ id entry = "id-1"
       /\ fst saved = "id-1"
       /\ timestamp entry = 1002
       /\ expiresAt entry = JsNumber 86401002
       /\ Forall (fun i => id i <> id entry) rest.
Proof.
  intros w1 saved.
  assert (Hsoon : Date_now Samples.okEnv (ticks (snd saved))
                  < Date_now Samples.okEnv (ticks w1) + HISTORY_TTL_MS)
    by (vm_compute; reflexivity).
  assert (Hinv : idsFromEarlierDraws Samples.okEnv w1).
  { apply (saveToHistory_fresh_id Samples.okEnv Samples.historyInput Samples.emptyWorld
             randomNeverRepeats_okEnv).
    apply idsFromEarlierDraws_empty. reflexivity. }
  split; [exact storageReliable_okEnv|]. split; [exact Hsoon|].
  split; [exact randomNeverRepeats_okEnv|]. split; [exact Hinv|].
  split; [vm_compute; reflexivity|].
  destruct (saveToHistory_then_getHistory Samples.okEnv Samples.historyInput
              w1 storageReliable_okEnv Hsoon)
    as (entry & rest & Hlisted & _ & Hret & Hid & _ & Hts & Hexp & _ & _ & Hfresh).
  destruct (Hfresh randomNeverRepeats_okEnv Hinv) as (_ & Hrest & _).
  exists entry, rest.
  split; [exact Hlisted|]. split; [rewrite Hid; reflexivity|].
  split; [transitivity (id entry); [exact Hret | rewrite Hid; reflexivity]|].
  split; [exact Hts|]. split; [exact Hexp | exact Hrest].
Defined.

Lemma getHistory_sweeps_expired_witness :
  let old := Samples.stored "old" (JsNumber 500) in
  let w := Samples.worldWith [old; Samples.stored "new" (JsNumber 5000)] in
  In old (getAllHistoryIncludingExpired w)
  /\ 500 <= Date_now Samples.okEnv (ticks w)
  /\ ~ In old (fst (getHistory Samples.okEnv w))
  /\ getAllHistoryIncludingExpired (snd (getHistory Samples.okEnv w))
     = [Samples.stored "new" (JsNumber 5000)].
Proof.
  intros old w.
  assert (Hin : In old (getAllHistoryIncludingExpired w)) by (left; reflexivity).
  assert (Hpast : 500 <= Date_now Samples.okEnv (ticks w)) by (vm_compute; discriminate).
  split; [exact Hin|]. split; [exact Hpast|].
  destruct (getHistory_sweeps_expired Samples.okEnv old 500 w Hin eq_refl Hpast eq_refl)
    as (Hout & _ & _).
  split; [exact Hout | reflexivity].
Defined.

Lemma append_at_capacity_witness :
  let w := Samples.worldWith (Samples.liveEntries 200) in
  let after :=
    getAllHistoryIncludingExpired
      (snd (saveToHistory Samples.okEnv Samples.historyInput w)) in
  storageReliable Samples.okEnv
  /\ length (retained Samples.okEnv w) = MAX_ITEMS
  /\ length after = 200%nat
  /\ getHistoryById "199" w = Some (Samples.stored "199" (JsNumber 5000))
  /\ exists kept,
       retained Samples.okEnv w = kept ++ [Samples.stored "199" (JsNumber 5000)]
       /\ after = newEntry Samples.okEnv Samples.historyInput w :: kept.
Proof.
  intros w after.
  assert (Hfull : length (retained Samples.okEnv w) = MAX_ITEMS)
    by (vm_compute; reflexivity).
  split; [exact storageReliable_okEnv|]. split; [exact Hfull|].
  destruct (append_at_capacity Samples.okEnv Samples.historyInput w
              storageReliable_okEnv Hfull)
    as (kept & oldest & Hsplit & Hstored & Hlen).
  split; [exact Hlen|]. split; [vm_compute; reflexivity|].
  exists kept. split; [|exact Hstored].
  rewrite Hsplit. f_equal. f_equal.
  assert (Hlast : last (retained Samples.okEnv w)
                  = Some (Samples.stored "199" (JsNumber 5000)))
    by (vm_compute; reflexivity).
  rewrite Hsplit, last_snoc in Hlast. injection Hlast as Hlast. exact Hlast.
Defined.

Lemma malformed_expiry_survives_sweeps_witness :
  let w := Samples.worldWith [Samples.stored "new" (JsNumber 5000); Samples.undated] in
  In Samples.undated (getAllHistoryIncludingExpired w)
  /\ typeofNumber (expiresAt Samples.undated) = false
  /\ In Samples.undated (fst (getHistory Samples.okEnv w))
  /\ In Samples.undated
       (getAllHistoryIncludingExpired (snd (clearExpiredHistory Samples.okEnv w))).
Proof.
  intros w.
  assert (Hin : In Samples.undated (getAllHistoryIncludingExpired w))
    by (right; left; reflexivity).
  split; [exact Hin|]. split; [reflexivity|].
  destruct (malformed_expiry_survives_sweeps Samples.okEnv Samples.undated
              Samples.historyInput w Hin eq_refl) as (Hlisted & _ & Hcleared & _).
  split; [exact Hlisted | exact Hcleared].
Defined.

(** C10 as stated fails on its last part: an entry without a usable
    [expiresAt] does not stay until it is deleted or cleared. With 199
    live entries in front of it, one append, which neither deletes nor
    clears, pushes it past the 200-entry cap and out of the store. *)
Lemma malformed_entry_evicted_counterexample :
  let w := Samples.worldWith (Samples.liveEntries 199 ++ [Samples.undated]) in
  let after := snd (saveToHistory Samples.okEnv Samples.historyInput w) in
  typeofNumber (expiresAt Samples.undated) = false
  /\ getHistoryById "undated" w = Some Samples.undated
  /\ length (getAllHistoryIncludingExpired w) = 200%nat
  /\ getHistoryById "undated" after = None
  /\ length (getAllHistoryIncludingExpired after) = 200%nat.
Proof. vm_compute. repeat split. Qed.

(** * Properties of the generation lifecycle *)

Section LifecycleProperties.

Context (env : Env).

(** Once the ref is set, no render starts a generation. *)
Lemma runEffects_ref_set renders : runEffects renders true = (0%nat, true).
Proof.
  induction renders as [|[hasHydrated data] rest IH]; [reflexivity|].
  cbn [runEffects]. unfold mountEffect.
  destruct hasHydrated, (truthyOpt (nd_imageUrl data) || negb (nd_isLoading data));
    cbn; rewrite IH; reflexivity.
Qed.

(** The mount effect starts at most one generation over any sequence of
    renders; when it starts one, the ref stays set. *)
Lemma runEffects_single_flight renders generatingRef :
  (fst (runEffects renders generatingRef) <= 1)%nat
  /\ (fst (runEffects renders generatingRef) = 1%nat ->
      snd (runEffects renders generatingRef) = true).
Proof.
  destruct generatingRef; [rewrite runEffects_ref_set; cbn; split; [lia|discriminate]|].
  induction renders as [|[hasHydrated data] rest IH].
  - cbn. split; [lia|discriminate].
  - cbn [runEffects]. unfold mountEffect.
    destruct hasHydrated, (truthyOpt (nd_imageUrl data) || negb (nd_isLoading data));
      cbn [negb orb];
      try (destruct (runEffects rest false) as [n ref]; exact IH).
    rewrite runEffects_ref_set. cbn. split; [lia|reflexivity].
Qed.

(** The effect run twice in a row on a node that is waiting for its
    image starts one generation, not two. *)
Lemma mountEffect_twice hasHydrated data :
  hasHydrated = true -> nd_isLoading data = true ->
  truthyOpt (nd_imageUrl data) = false ->
  runEffects [(hasHydrated, data); (hasHydrated, data)] false = (1%nat, true).
Proof.
  intros -> Hload Hurl. cbn. unfold mountEffect. cbn.
  rewrite Hload, Hurl. reflexivity.
Qed.

Lemma append_assoc (a b c : string) : (a +:+ b) +:+ c = a +:+ (b +:+ c).
Proof.
  induction a as [|x a IH]; [reflexivity|].
  change (String x ((a +:+ b) +:+ c) = String x (a +:+ (b +:+ c))).
  rewrite IH. reflexivity.
Qed.

(** [handleGenerate] has no such guard: unless the credential check
    stops it, every invocation sets [loading] and sends a request. *)
Lemma handleGenerate_begin_sends i v w :
  requiresAuth (PROVIDER_CONFIGS env (in_provider i))
    && (length (in_providerTokens i) =? 0)%nat = false ->
  let r := generateRequest env (hookOptions i) TokenUndefined in
  exists v1,
    handleGenerate_begin env i v w =
    (v1, setRequests (requests w ++ [r]) w,
     Some (decodeApi (fetch env (requests w) r)))
    /\ v_loading v1 = true
    /\ v_toasts v1 = v_toasts v
    /\ v_status v1 =
       "Initializing..." +:+ newline +:+ "Sending request to "
         +:+ name (PROVIDER_CONFIGS env (in_provider i)) +:+ "...".
Proof.
  intros Hgo r. unfold handleGenerate_begin. rewrite Hgo.
  eexists. split; [reflexivity|]. repeat split.
Qed.

Lemma handleGenerate_begin_twice i v w :
  requiresAuth (PROVIDER_CONFIGS env (in_provider i))
    && (length (in_providerTokens i) =? 0)%nat = false ->
  let r := generateRequest env (hookOptions i) TokenUndefined in
  let first := handleGenerate_begin env i v w in
  let second := handleGenerate_begin env i (fst (fst first)) (snd (fst first)) in
  v_loading (fst (fst first)) = true
  /\ requests (snd (fst second)) = requests w ++ [r; r].
Proof.
  intros Hgo r first second.
  pose proof (handleGenerate_begin_sends i v w Hgo) as (v1 & H1 & Hload & _).
  subst first second. fold r in H1. rewrite H1. cbn [fst snd].
  pose proof (handleGenerate_begin_sends i v1 (setRequests (requests w ++ [r]) w) Hgo)
    as (v2 & H2 & _).
  fold r in H2. rewrite H2. cbn [fst snd requests setRequests].
  split; [exact Hload|]. rewrite <- app_assoc. reflexivity.
Qed.

(** The upscale failures that [handleGenerate] provides for. When the
    primary generation succeeds (a result with image details and a url)
    and the chained upscale is attempted and ends in the [else] branch
    (a failure result, or an object without url), [handleGenerate] ends
    with [loading] off and the image details set to the primary details,
    the original url included, together with the new history id. The
    failure leaves only advisories, the status line and the error toast
    about the upscale; the [catch] block is not run. [saveToHistory] is
    still called, with the original url, after the two requests. *)
Theorem failed_upscale_keeps_success i v w data details :
  let cfg := PROVIDER_CONFIGS env (in_provider i) in
  let r1 := generateRequest env (hookOptions i) TokenUndefined in
  let r2 := upscaleRequest env (img_url details) 4 (hfTokenArg (in_hfTokens i)) in
  let upResult := decodeApi (fetch env (requests w ++ [r1]) r2) in
  let w2 := tick (setRequests (requests w ++ [r1; r2]) w) in
  let saved := saveToHistory env (homeHistoryInput i details) w2 in
  requiresAuth cfg && (length (in_providerTokens i) =? 0)%nat = false ->
  decodeApi (fetch env (requests w) r1) = Success data ->
  j_imageDetails data = Some details ->
  truthy (img_url details) = true ->
  in_upscale8k i = true ->
  String.prefix "http" (img_url details) = true ->
  upscaleFailed upResult = true ->
  exists v',
    handleGenerate env i v w = (v', snd saved)
    /\ v_loading v' = false
    /\ v_imageDetails v' =
       Some {| md_details := details;
               md_historyId := Some (fst saved);
               md_generatedAt := Some (Date_now env (ticks w)) |}
    /\ v_historyId v' = Some (fst saved)
    /\ v_toasts v' =
       v_toasts v ++ [ToastError "8K upscale failed, showing original image";
                      ToastSuccess "Image generated!"]
    /\ v_status v' =
       "Initializing..." +:+ newline +:+ "Sending request to " +:+ name cfg +:+ "..."
         +:+ newline +:+ "Image generated in " +:+ img_duration details +:+ "!"
         +:+ newline +:+ "Upscaling to 8K..."
         +:+ newline +:+ "8K upscale failed: " +:+ upscaleFailureText upResult
    /\ h_url (homeHistoryInput i details) = img_url details
    /\ requests (snd saved) = requests w ++ [r1; r2]
    /\ (storageReliable env ->
        getAllHistoryIncludingExpired (snd saved) =
        newEntry env (homeHistoryInput i details) w2
          :: take (MAX_ITEMS - 1) (retained env w2)).
Proof.
  intros cfg r1 r2 upResult w2 saved Hgo Hprimary Hdetails Hurl Hup Hhttp Hfail.
  destruct data as [typeError|data]; [discriminate Hdetails|]. cbn [fieldsOf] in Hdetails.
  destruct (handleGenerate_begin_sends i v w Hgo) as (v1 & Hbegin & Hload & Htoasts & Hstatus).
  unfold handleGenerate. rewrite Hbegin. fold r1. rewrite Hprimary.
  unfold handleGenerate_resume. rewrite Hdetails, Hurl, Hup, Hhttp. cbn [negb andb].
  unfold upscaleImage, doFetch. cbn [requests setRequests]. fold r2. fold upResult.
  assert (Hw : setRequests ((requests w ++ [r1]) ++ [r2])
                 (setRequests (requests w ++ [r1]) w)
               = setRequests (requests w ++ [r1; r2]) w).
  { unfold setRequests. cbn. rewrite <- app_assoc. reflexivity. }
  rewrite Hw.
  assert (Hsave : forall vx,
             handleGenerate_save env i details vx (setRequests (requests w ++ [r1; r2]) w)
             = (toast (ToastSuccess "Image generated!")
                  (setGenerated (fst saved) (Date_now env (ticks w)) details vx),
                snd saved)).
  { intros vx. unfold handleGenerate_save. cbn [now]. fold w2. fold saved.
    destruct saved as [newId w3]. reflexivity. }
  assert (Hreqs : requests (snd saved) = requests w ++ [r1; r2]).
  { subst saved. rewrite requests_saveToHistory. reflexivity. }
  assert (Hrest :
            h_url (homeHistoryInput i details) = img_url details
            /\ requests (snd saved) = requests w ++ [r1; r2]
            /\ (storageReliable env ->
                getAllHistoryIncludingExpired (snd saved) =
                newEntry env (homeHistoryInput i details) w2
                  :: take (MAX_ITEMS - 1) (retained env w2))).
  { split; [reflexivity|]. split; [exact Hreqs|].
    intros Hrel. subst saved. rewrite saveToHistory_stored by exact Hrel. reflexivity. }
  destruct upResult as [[typeError|up]|error info] eqn:Hres;
    cbn [upscaleFailed] in Hfail; [discriminate Hfail| |].
  - apply negb_true_iff in Hfail. rewrite Hfail. rewrite Hsave.
    eexists. split; [reflexivity|]. cbn.
    rewrite Htoasts, Hstatus. repeat split; try apply Hrest.
    + rewrite <- app_assoc. reflexivity.
    + rewrite !append_assoc. reflexivity.
  - rewrite Hsave.
    eexists. split; [reflexivity|]. cbn.
    rewrite Htoasts, Hstatus. repeat split; try apply Hrest.
    + rewrite <- app_assoc. reflexivity.
    + rewrite !append_assoc. reflexivity.
Qed.

End LifecycleProperties.

(** ** The lifecycle properties at sample inputs *)

(** C4. The claim holds for an image node and fails for the hook. The
    mount effect run twice on a waiting node starts one generation. But
    [handleGenerate] invoked twice, the second time while the first call
    is still pending and [loading] is set, sends two requests, both calls
    are in flight together, and when both resolve two history entries
    have been written. *)
Theorem handleGenerate_twice_sends_two_requests :
  let first :=
    handleGenerate_begin Samples.okEnv Samples.noTokenInputs Samples.idleView
      Samples.emptyWorld in
  let second :=
    handleGenerate_begin Samples.okEnv Samples.noTokenInputs
      (fst (fst first)) (snd (fst first)) in
  let resumed :=
    handleGenerate_resume Samples.okEnv Samples.noTokenInputs
      (default (Failure "" None) (snd first)) (fst (fst second)) (snd (fst second)) in
  let finished :=
    handleGenerate_resume Samples.okEnv Samples.noTokenInputs
      (default (Failure "" None) (snd second)) (fst resumed) (snd resumed) in
  runEffects [(true, Samples.pendingNode); (true, Samples.pendingNode)] false
  = (1%nat, true)
  /\ v_loading (fst (fst first)) = true
  /\ is_Some (snd first)
  /\ is_Some (snd second)
  /\ length (requests (snd (fst second))) = 2%nat
  /\ length (getAllHistoryIncludingExpired (snd finished)) = 2%nat.
Proof.
  cbv zeta. split; [reflexivity|]. split; [reflexivity|].
  split; [eexists; reflexivity|]. split; [eexists; reflexivity|].
  split; vm_compute; reflexivity.
Qed.

(** C5. The claim fails on one kind of failing upscale, a 2xx answer
    whose body is [null]. The primary generation has succeeded and the
    upscale request has been sent; [upscaleImage] returns a success whose
    data is [null], reading [upResult.data.url] throws inside the [try],
    and the [catch] block runs: the handler ends with no image, an error
    toast carrying the [TypeError] message, and no history entry, where
    the other upscale failures keep the primary result
    ([failed_upscale_keeps_success]). *)
Theorem null_upscale_answer_discards_result :
  let env := Samples.upscaleNullEnv in
  let r1 := generateRequest env (hookOptions Samples.inputs) TokenUndefined in
  let r2 := upscaleRequest env (img_url Samples.picture) 4
              (hfTokenArg (in_hfTokens Samples.inputs)) in
  let run := handleGenerate env Samples.inputs Samples.idleView Samples.emptyWorld in
  decodeApi (fetch env [] r1)
  = Success (JsonObj {| j_error := None; j_code := None; j_details := None;
                        j_imageDetails := Some Samples.picture; j_url := None |})
  /\ decodeApi (fetch env [r1] r2)
     = Success (JsonNull "Cannot read properties of null (reading 'url')")
  /\ requests (snd run) = [r1; r2]
  /\ v_loading (fst run) = false
  /\ v_imageDetails (fst run) = None
  /\ v_historyId (fst run) = None
  /\ v_toasts (fst run)
     = [ToastError "Cannot read properties of null (reading 'url')"]
  /\ localStorage (snd run) = None
  /\ getAllHistoryIncludingExpired (snd run) = [].
Proof. cbv zeta. repeat split. Qed.

Lemma failed_upscale_keeps_success_witness :
  let run :=
    handleGenerate Samples.upscaleDownEnv Samples.inputs Samples.idleView
      Samples.emptyWorld in
  upscaleFailed
    (decodeApi
       (fetch Samples.upscaleDownEnv
          [generateRequest Samples.upscaleDownEnv (hookOptions Samples.inputs)
             TokenUndefined]
          (upscaleRequest Samples.upscaleDownEnv (img_url Samples.picture) 4
             (hfTokenArg (in_hfTokens Samples.inputs))))) = true
  /\ v_loading (fst run) = false
  /\ (md_details <$> v_imageDetails (fst run)) = Some Samples.picture
  /\ v_toasts (fst run) =
     [ToastError "8K upscale failed, showing original image";
      ToastSuccess "Image generated!"]
  /\ (h_url ∘ input <$> getAllHistoryIncludingExpired (snd run))
     = [img_url Samples.picture]
  /\ length (requests (snd run)) = 2%nat.
Proof.
  intros run.
  destruct (failed_upscale_keeps_success Samples.upscaleDownEnv Samples.inputs
              Samples.idleView Samples.emptyWorld
              (JsonObj {| j_error := None; j_code := None; j_details := None;
                 j_imageDetails := Some Samples.picture; j_url := None |})
              Samples.picture)
    as (v' & Hrun & Hload & Hdetails & _ & Htoasts & _ & _ & Hreqs & Hstored);
    try reflexivity.
  split; [reflexivity|].
  subst run. rewrite Hrun. cbn [fst snd].
  split; [exact Hload|]. split; [rewrite Hdetails; reflexivity|].
  split; [exact Htoasts|].
  split; [rewrite Hstored by (intros items; reflexivity); reflexivity|].
  rewrite Hreqs. reflexivity.
Defined.

(** * Further properties of the history store *)

Section MoreHistoryProperties.

Context (env : Env).
Implicit Types (w : World) (items : list ImageHistoryItem).

Lemma take_cons_max {A} (x : A) (l : list A) :
  take MAX_ITEMS (x :: l) = x :: take (MAX_ITEMS - 1) l.
Proof. reflexivity. Qed.

(** X1. Insert then look up: after [saveToHistory], [getHistoryById] on the
    returned id finds the entry just written, whatever the store held
    before (an older entry with the same id included, since the new one
    is first). The storage is taken to accept the writes. *)
Theorem saveToHistory_then_getHistoryById item w :
  storageReliable env ->
  getHistoryById (fst (saveToHistory env item w)) (snd (saveToHistory env item w))
  = Some (newEntry env item w).
Proof.
  intros Hrel. unfold getHistoryById.
  rewrite saveToHistory_stored by exact Hrel.
  rewrite saveToHistory_eq, take_cons_max. cbn [fst List.find].
  rewrite String.eqb_refl. reflexivity.
Qed.

Lemma filter_filter_same {A} (f : A -> bool) (l : list A) :
  List.filter f (List.filter f l) = List.filter f l.
Proof.
  induction l as [|x l IH]; [reflexivity|]. cbn.
  destruct (f x) eqn:Hf; cbn; rewrite ?Hf, IH; reflexivity.
Qed.

Lemma find_filter_other (target other : string) items :
  other <> target ->
  List.find (fun i => String.eqb (id i) other)
    (List.filter (fun i => negb (String.eqb (id i) target)) items)
  = List.find (fun i => String.eqb (id i) other) items.
Proof.
  intros Hne. induction items as [|x items IH]; [reflexivity|]. cbn.
  destruct (String.eqb (id x) target) eqn:Ht; cbn.
  - apply String.eqb_eq in Ht.
    destruct (String.eqb (id x) other) eqn:Ho; [|exact IH].
    apply String.eqb_eq in Ho. congruence.
  - destruct (String.eqb (id x) other); [reflexivity | exact IH].
Qed.

Lemma find_filter_self (target : string) items :
  List.find (fun i => String.eqb (id i) target)
    (List.filter (fun i => negb (String.eqb (id i) target)) items) = None.
Proof.
  induction items as [|x items IH]; [reflexivity|]. cbn.
  destruct (String.eqb (id x) target) eqn:Ht; cbn; [exact IH|].
  rewrite Ht. exact IH.
Qed.

(** X2. [deleteHistoryItem] removes every entry with the given id, expired
    or not, and nothing else: the other entries stay, in order, so every
    other id is found as before; the clock is not read; and deleting the
    same id again changes nothing. The storage is taken to accept the
    write. *)
Theorem deleteHistoryItem_removes target w :
  let kept :=
    List.filter (fun i => negb (String.eqb (id i) target))
      (getAllHistoryIncludingExpired w) in
  setItemAccepts env kept = true ->
  getAllHistoryIncludingExpired (deleteHistoryItem env target w) = kept
  /\ getHistoryById target (deleteHistoryItem env target w) = None
  /\ (forall other, other <> target ->
      getHistoryById other (deleteHistoryItem env target w) = getHistoryById other w)
  /\ ticks (deleteHistoryItem env target w) = ticks w
  /\ deleteHistoryItem env target (deleteHistoryItem env target w)
     = deleteHistoryItem env target w.
Proof.
  intros kept Hacc.
  assert (Hstored : getAllHistoryIncludingExpired (deleteHistoryItem env target w) = kept).
  { unfold deleteHistoryItem. apply getAll_writeHistory_accepted. exact Hacc. }
  split; [exact Hstored|]. split.
  { unfold getHistoryById. rewrite Hstored. apply find_filter_self. }
  split.
  { intros other Hne. unfold getHistoryById. rewrite Hstored.
    apply find_filter_other. exact Hne. }
  split.
  { unfold deleteHistoryItem, writeHistory. fold kept. rewrite Hacc. reflexivity. }
  unfold deleteHistoryItem at 1. rewrite Hstored.
  subst kept. rewrite filter_filter_same.
  unfold deleteHistoryItem, writeHistory. rewrite Hacc. reflexivity.
Qed.

(** X3. A store that cannot be read degrades to the empty history instead
    of raising: with nothing stored, with text that does not parse, or
    with a value that is not an array, [getHistory] returns no entry and
    leaves the stored value alone, [getHistoryById] finds nothing,
    [clearExpiredHistory] counts no removal, and a [saveToHistory]
    replaces the unreadable value by an array holding the new entry only
    (given that the storage accepts the writes). *)
Theorem unreadable_store_is_empty item target w :
  localStorage w = None \/ localStorage w = Some Malformed
  \/ localStorage w = Some NonArray ->
  getHistory env w = ([], tick w)
  /\ getHistoryById target w = None
  /\ fst (clearExpiredHistory env w) = 0
  /\ (storageReliable env ->
      localStorage (snd (saveToHistory env item w))
      = Some (ArrayOf [Item (newEntry env item w)])).
Proof.
  intros Hbad.
  assert (Hnone : forall w0, localStorage w0 = localStorage w ->
                    getAllHistoryIncludingExpired w0 = []).
  { intros w0 H0. unfold getAllHistoryIncludingExpired. rewrite H0.
    destruct Hbad as [-> | [-> | ->]]; reflexivity. }
  assert (Hget : forall w0, localStorage w0 = localStorage w ->
                   getHistory env w0 = ([], tick w0)).
  { intros w0 H0. unfold getHistory. cbn [now].
    fold (getAllHistoryIncludingExpired w0). rewrite (Hnone w0 H0). reflexivity. }
  split; [apply Hget; reflexivity|]. split.
  { unfold getHistoryById. rewrite (Hnone w eq_refl). reflexivity. }
  split.
  { unfold clearExpiredHistory. cbn [now fst]. rewrite (Hnone w eq_refl). reflexivity. }
  intros Hrel. rewrite saveToHistory_eq. cbn [snd].
  unfold retained.
  assert (Hls : localStorage (beforeSweep env w) = localStorage w).
  { unfold beforeSweep, generateId. destruct (hasRandomUUID env); reflexivity. }
  rewrite (Hget _ Hls). cbn [fst snd].
  unfold writeHistory. rewrite Hrel. reflexivity.
Qed.

(** X4. The cap holds after every append, whatever was stored before (more
    than 200 entries too): [saveToHistory] leaves at least one and at most
    [MAX_ITEMS] entries in the store. The storage is taken to accept the
    writes. *)
Theorem saveToHistory_bounded item w :
  storageReliable env ->
  (1 <= length (getAllHistoryIncludingExpired (snd (saveToHistory env item w)))
   <= MAX_ITEMS)%nat.
Proof.
  intros Hrel. rewrite saveToHistory_stored by exact Hrel.
  rewrite take_cons_max. cbn [length]. rewrite length_take.
  unfold MAX_ITEMS. lia.
Qed.

(** X5. A refused write is silent: when [localStorage.setItem] throws on
    every value, [saveToHistory] still returns the id it drew, but the
    stored value is what it was, neither the new entry nor the sweep of
    the expired ones is persisted, and nothing is raised. *)
Theorem refused_write_is_silent item w :
  (forall items, setItemAccepts env items = false) ->
  fst (saveToHistory env item w) = fst (generateId env (tick w))
  /\ localStorage (snd (saveToHistory env item w)) = localStorage w
  /\ localStorage (snd (getHistory env w)) = localStorage w
  /\ localStorage (snd (clearExpiredHistory env w)) = localStorage w
  /\ localStorage (deleteHistoryItem env (fst (saveToHistory env item w)) w)
     = localStorage w.
Proof.
  intros Hfull.
  assert (Hwrite : forall items w0, writeHistory env items w0 = w0).
  { intros items w0. unfold writeHistory. rewrite Hfull. reflexivity. }
  assert (Hget : forall w0, localStorage (snd (getHistory env w0)) = localStorage w0).
  { intros w0. unfold getHistory. cbn [now snd]. rewrite Hwrite.
    destruct (negb _); reflexivity. }
  split.
  { rewrite saveToHistory_eq. cbn [fst]. apply newEntry_fields. }
  split.
  { rewrite saveToHistory_eq. cbn [snd]. rewrite Hwrite, Hget.
    unfold beforeSweep, generateId. destruct (hasRandomUUID env); reflexivity. }
  split; [apply Hget|]. split.
  - unfold clearExpiredHistory. cbn [now snd]. rewrite Hwrite. reflexivity.
  - unfold deleteHistoryItem. rewrite Hwrite. reflexivity.
Qed.

Lemma filter_partition_length {A} (f : A -> bool) (l : list A) :
  (length (List.filter f l) + length (List.filter (fun x => negb (f x)) l)
   = length l)%nat.
Proof.
  induction l as [|x l IH]; [reflexivity|]. cbn.
  destruct (f x); cbn; lia.
Qed.

(** X6. [clearExpiredHistory] returns the number of entries it removed:
    the stored entries afterwards are those unexpired at its clock
    reading, in order; the returned count is the number of expired ones,
    it is never negative, and it is the difference of the store's sizes
    before and after. The storage is taken to accept the write. *)
Theorem clearExpiredHistory_count w :
  let t := Date_now env (ticks w) in
  let before := getAllHistoryIncludingExpired w in
  let after := getAllHistoryIncludingExpired (snd (clearExpiredHistory env w)) in
  setItemAccepts env (List.filter (unexpired t) before) = true ->
  after = List.filter (unexpired t) before
  /\ fst (clearExpiredHistory env w)
     = Z.of_nat (length (List.filter (fun i => negb (unexpired t i)) before))
  /\ 0 <= fst (clearExpiredHistory env w)
  /\ fst (clearExpiredHistory env w)
     = Z.of_nat (length before) - Z.of_nat (length after).
Proof.
  intros t before after Hacc.
  assert (Hafter : after = List.filter (unexpired t) before).
  { subst after. unfold clearExpiredHistory. cbn [now snd].
    apply getAll_writeHistory_accepted. exact Hacc. }
  pose proof (filter_partition_length (unexpired t) before) as Hpart.
  assert (Hcount : fst (clearExpiredHistory env w)
                   = Z.of_nat (length before)
                     - Z.of_nat (length (List.filter (unexpired t) before))).
  { reflexivity. }
  split; [exact Hafter|]. rewrite Hafter, Hcount. repeat split; lia.
Qed.

(** X7. [getHistoryStats] only reads: the stored value is left as it is.
    Its numbers add up, [total = valid + expired] with neither part
    negative, and they agree with the other operations run from the same
    world: [valid] is the number of entries [getHistory] returns and
    [expired] is the count [clearExpiredHistory] reports. *)
Theorem getHistoryStats_consistent w :
  let stats := fst (getHistoryStats env w) in
  snd (getHistoryStats env w) = tick w
  /\ st_total stats = st_valid stats + st_expired stats
  /\ 0 <= st_valid stats
  /\ 0 <= st_expired stats
  /\ st_total stats = Z.of_nat (length (getAllHistoryIncludingExpired w))
  /\ st_valid stats = Z.of_nat (length (fst (getHistory env w)))
  /\ st_expired stats = fst (clearExpiredHistory env w).
Proof.
  intros stats. subst stats. unfold getHistoryStats. cbn [now fst snd].
  pose proof (List.filter_length_le (unexpired (Date_now env (ticks w)))
                (getAllHistoryIncludingExpired w)) as Hle.
  cbn [st_total st_valid st_expired].
  repeat split; try lia.
Qed.

(** X8. [getHistory] rewrites the store only when an entry has expired.
    When every stored entry is still alive it returns them all and the
    stored value is untouched, so array elements that are not objects,
    which [safeParseArray] skips, stay in storage. *)
Theorem getHistory_all_alive_no_write w :
  Forall (fun i => unexpired (Date_now env (ticks w)) i = true)
    (getAllHistoryIncludingExpired w) ->
  getHistory env w = (getAllHistoryIncludingExpired w, tick w).
Proof.
  intros Halive. unfold getHistory. cbn [now].
  fold (getAllHistoryIncludingExpired w).
  assert (Hsame : List.filter (unexpired (Date_now env (ticks w)))
                    (getAllHistoryIncludingExpired w)
                  = getAllHistoryIncludingExpired w).
  { induction Halive as [|x l Hx _ IH]; [reflexivity|].
    cbn. rewrite Hx, IH. reflexivity. }
  rewrite Hsame, Nat.eqb_refl. reflexivity.
Qed.

(** X9. The expired badge of a history item and the sweep of the store
    disagree at one instant only. For an entry whose [expiresAt] is the
    number [e]: whenever the badge shows ([now > e]) the sweep drops the
    entry; the sweep drops it without the badge showing exactly when
    [now = e]. *)
Theorem badge_and_sweep entry e t :
  expiresAt entry = JsNumber e ->
  (isExpired t e = true -> unexpired t entry = false)
  /\ (unexpired t entry = false /\ isExpired t e = false <-> t = e).
Proof.
  intros Hexp. unfold isExpired, unexpired. rewrite Hexp.
  split.
  - intros H. apply Z.ltb_lt in H. apply Z.ltb_ge. lia.
  - split.
    + intros [H1 H2]. apply Z.ltb_ge in H1. apply Z.ltb_ge in H2. lia.
    + intros ->. split; apply Z.ltb_irrefl.
Qed.

End MoreHistoryProperties.

(** * Further properties of the rotation *)

Section MoreRotationProperties.

Context (env : Env).
Implicit Types (w : World) (allTokens : list string) (provider : ProviderType).

(** X10. [generateImageApiSingle] hands back image details in one case
    only: the fetch resolved, the status is 2xx, the body parsed, and the
    body carries [imageDetails]; the details are then those of the body.
    Every other answer is an error. *)
Theorem decodeSingle_returns_iff o d :
  decodeSingle o = Returned d <->
  exists res data,
    o = Resolved res /\ ok res = true /\ res_text res = Json data
    /\ j_imageDetails data = Some d.
Proof.
  split.
  - destruct o as [e|res]; cbn; [discriminate|].
    destruct (res_text res) as [text syn|[typeError|data]] eqn:Htext.
    + destruct (negb (truthy text)); discriminate.
    + discriminate.
    + destruct (ok res) eqn:Hok; cbn; [|discriminate].
      destruct (j_imageDetails data) as [d'|] eqn:Hd; [|discriminate].
      intros H. injection H as <-. exists res, (JsonObj data). auto.
  - intros (res & data & -> & Hok & Htext & Hd).
    destruct data as [typeError|data]; [discriminate Hd|]. cbn [fieldsOf] in Hd.
    cbn. rewrite Htext, Hok, Hd. reflexivity.
Qed.

(** What every run of the loop keeps: it sends at most [remaining]
    requests, never touches the storage, the clock or the random draws,
    and the pool only grows, by secrets of the list under the provider of
    the run. *)
Lemma rotationLoop_frame prompt width height provider allTokens model seed requiresAuth :
  forall remaining w out w',
    rotationLoop env remaining prompt width height provider allTokens model seed
      requiresAuth w = (out, w') ->
    (exists new, requests w' = requests w ++ new /\ (length new <= remaining)%nat)
    /\ localStorage w' = localStorage w
    /\ ticks w' = ticks w
    /\ draws w' = draws w
    /\ pool w ⊆ pool w'
    /\ (forall p t, (p, t) ∈ pool w' ->
        (p, t) ∈ pool w \/ (p = provider /\ In t allTokens)).
Proof.
  induction remaining as [|n IH]; intros w out w' Hrun; cbn [rotationLoop] in Hrun.
  - injection Hrun as _ <-. split; [exists []; rewrite app_nil_r; split; [reflexivity|cbn; lia]|].
    repeat split; auto.
  - destruct (getNextAvailableToken provider allTokens w) as [t|] eqn:Hnext;
      cbn [truthyOpt] in Hrun;
      [destruct (truthy t) eqn:Ht|]; cbn [negb] in Hrun.
    + unfold tryCatch in Hrun. rewrite generateImageApiSingle_eq in Hrun.
      set (r0 := singleRequest env prompt width height provider (Some t) model seed) in *.
      destruct (decodeSingle (fetch env (requests w) r0)) as [d|err].
      * injection Hrun as _ <-. split; [exists [r0]; split; [reflexivity|cbn; lia]|].
        repeat split; auto.
      * destruct (isQuotaError env err).
        -- apply IH in Hrun as ((new & Hreq & Hlen) & Hls & Htk & Hdr & Hsub & Hnew).
           split.
           { exists (r0 :: new). split; [|cbn; lia].
             rewrite Hreq. cbn. rewrite <- app_assoc. reflexivity. }
           split; [exact Hls|]. split; [exact Htk|]. split; [exact Hdr|].
           split.
           { etransitivity; [|exact Hsub]. cbn. set_solver. }
           intros p t' Hin. destruct (Hnew p t' Hin) as [Hold|Hfresh]; [|right; exact Hfresh].
           cbn in Hold. apply elem_of_union in Hold as [Hold|Hold]; [|left; exact Hold].
           apply elem_of_singleton in Hold. injection Hold as -> ->.
           right. split; [reflexivity|].
           unfold getNextAvailableToken in Hnext.
           apply List.find_some in Hnext as [Hin' _]. exact Hin'.
        -- injection Hrun as _ <-. split; [exists [r0]; split; [reflexivity|cbn; lia]|].
           repeat split; auto.
    + destruct requiresAuth; cbn [negb] in Hrun.
      * injection Hrun as _ <-.
        split; [exists []; rewrite app_nil_r; split; [reflexivity|cbn; lia]|].
        repeat split; auto.
      * rewrite generateImageApiSingle_eq in Hrun. injection Hrun as _ <-.
        split; [eexists [_]; split; [reflexivity|cbn; lia]|].
        repeat split; auto.
    + destruct requiresAuth; cbn [negb] in Hrun.
      * injection Hrun as _ <-.
        split; [exists []; rewrite app_nil_r; split; [reflexivity|cbn; lia]|].
        repeat split; auto.
      * rewrite generateImageApiSingle_eq in Hrun. injection Hrun as _ <-.
        split; [eexists [_]; split; [reflexivity|cbn; lia]|].
        repeat split; auto.
Qed.

Lemma generateImageWithRotation_frame prompt width height provider allTokens model seed
    requiresAuth w out w' :
  generateImageWithRotation env prompt width height provider allTokens model seed
    requiresAuth w = (out, w') ->
  (exists new, requests w' = requests w ++ new
               /\ (length new <= MAX_RETRY_ATTEMPTS)%nat)
  /\ localStorage w' = localStorage w
  /\ ticks w' = ticks w
  /\ draws w' = draws w
  /\ pool w ⊆ pool w'
  /\ (forall p t, (p, t) ∈ pool w' ->
      (p, t) ∈ pool w \/ (p = provider /\ In t allTokens)).
Proof.
  unfold generateImageWithRotation. destruct allTokens as [|t0 rest].
  - destruct requiresAuth; [|rewrite generateImageApiSingle_eq];
      intros H; injection H as _ <-.
    + split; [exists []; rewrite app_nil_r; split; [reflexivity|cbn; lia]|].
      repeat split; auto.
    + split; [eexists [_]; split; [reflexivity|unfold MAX_RETRY_ATTEMPTS; cbn; lia]|].
      repeat split; auto.
  - apply rotationLoop_frame.
Qed.

(** X11. The attempt budget bounds the traffic: whatever the backend
    answers and whatever the pool holds, one run of
    [generateImageWithRotation] sends at most [MAX_RETRY_ATTEMPTS]
    requests, the anonymous call included. *)
Theorem rotation_call_bound prompt width height provider allTokens model seed
    requiresAuth w :
  let w' := snd (generateImageWithRotation env prompt width height provider allTokens
                   model seed requiresAuth w) in
  exists new,
    requests w' = requests w ++ new /\ (length new <= MAX_RETRY_ATTEMPTS)%nat.
Proof.
  intros w'. subst w'.
  destruct (generateImageWithRotation env prompt width height provider allTokens
              model seed requiresAuth w) as [out w'] eqn:Hrun.
  apply generateImageWithRotation_frame in Hrun as (Hnew & _). exact Hnew.
Qed.

(** X12. A run of [generateImageWithRotation] leaves the history storage,
    the clock and the random draws alone; no secret is ever taken back
    out of the exhausted pool; and the only pairs it adds are secrets of
    its own token list under its own provider, so the pools of the other
    providers are as before. *)
Theorem rotation_touches_only_its_pool prompt width height provider allTokens model seed
    requiresAuth w :
  let w' := snd (generateImageWithRotation env prompt width height provider allTokens
                   model seed requiresAuth w) in
  localStorage w' = localStorage w
  /\ ticks w' = ticks w
  /\ draws w' = draws w
  /\ pool w ⊆ pool w'
  /\ (forall p t, (p, t) ∈ pool w' ->
      (p, t) ∈ pool w \/ (p = provider /\ In t allTokens))
  /\ (forall p t, p <> provider -> (p, t) ∈ pool w' <-> (p, t) ∈ pool w).
Proof.
  intros w'. subst w'.
  destruct (generateImageWithRotation env prompt width height provider allTokens
              model seed requiresAuth w) as [out w'] eqn:Hrun.
  apply generateImageWithRotation_frame in Hrun as (_ & Hls & Htk & Hdr & Hsub & Hnew).
  cbn [snd]. repeat split; auto.
  intros Hin. destruct (Hnew p t Hin) as [Hold|[Hp _]]; [exact Hold | contradiction].
Qed.

(** A call that returns image details is the last call of the loop, and
    the loop returns those details. *)
Lemma rotationLoop_success_last prompt width height provider allTokens model seed
    requiresAuth :
  forall remaining w out w',
    rotationLoop env remaining prompt width height provider allTokens model seed
      requiresAuth w = (out, w') ->
    exists new,
      requests w' = requests w ++ new
      /\ forall pre r post d,
           new = pre ++ r :: post ->
           decodeSingle (fetch env (requests w ++ pre) r) = Returned d ->
           post = [] /\ out = Returned d.
Proof.
  induction remaining as [|n IH]; intros w out w' Hrun; cbn [rotationLoop] in Hrun.
  - injection Hrun as <- <-. exists []. rewrite app_nil_r. split; [reflexivity|].
    intros [|? ?] ? ? ? H; discriminate H.
  - destruct (truthyOpt (getNextAvailableToken provider allTokens w)) eqn:Htok;
      cbn [negb] in Hrun.
    + unfold tryCatch in Hrun. rewrite generateImageApiSingle_eq in Hrun.
      set (r0 := singleRequest env prompt width height provider
                   (getNextAvailableToken provider allTokens w) model seed) in *.
      destruct (decodeSingle (fetch env (requests w) r0)) as [d0|err] eqn:Hdec.
      * injection Hrun as <- <-. exists [r0]. split; [reflexivity|].
        intros pre r post d Hsplit Hret.
        apply singleton_split in Hsplit as (-> & -> & ->).
        rewrite app_nil_r in Hret. split; [reflexivity | congruence].
      * destruct (isQuotaError env err) eqn:Hquota.
        -- apply IH in Hrun as (new & Hreq & Hlast).
           exists (r0 :: new). split.
           ++ rewrite Hreq. destruct (getNextAvailableToken provider allTokens w);
                cbn; rewrite <- app_assoc; reflexivity.
           ++ intros pre r post d Hsplit Hret.
              destruct pre as [|x pre]; cbn [app] in Hsplit.
              ** injection Hsplit as <- _. rewrite app_nil_r in Hret. congruence.
              ** injection Hsplit as <- Hsplit.
                 apply (Hlast pre r post d Hsplit).
                 replace (requests _ ++ pre) with (requests w ++ r0 :: pre);
                   [exact Hret|].
                 destruct (getNextAvailableToken provider allTokens w);
                   cbn; rewrite <- app_assoc; reflexivity.
        -- injection Hrun as <- <-. exists [r0]. split; [reflexivity|].
           intros pre r post d Hsplit Hret.
           apply singleton_split in Hsplit as (-> & -> & ->).
           rewrite app_nil_r in Hret. congruence.
    + destruct requiresAuth; cbn [negb] in Hrun.
      * injection Hrun as <- <-. exists []. rewrite app_nil_r. split; [reflexivity|].
        intros [|? ?] ? ? ? H; discriminate H.
      * rewrite generateImageApiSingle_eq in Hrun. injection Hrun as <- <-.
        eexists [_]. split; [reflexivity|].
        intros pre r post d Hsplit Hret.
        apply singleton_split in Hsplit as (-> & -> & ->).
        rewrite app_nil_r in Hret. split; [reflexivity | congruence].
Qed.

(** X13. Success ends the run. In every run of
    [generateImageWithRotation], a request whose answer decodes to image
    details is the last request sent, and the run returns exactly those
    details: nothing is retried or rotated after a success. *)
Theorem rotation_success_is_last prompt width height provider allTokens model seed
    requiresAuth w out w' pre r post d :
  generateImageWithRotation env prompt width height provider allTokens model seed
    requiresAuth w = (out, w') ->
  requests w' = requests w ++ pre ++ r :: post ->
  decodeSingle (fetch env (requests w ++ pre) r) = Returned d ->
  post = [] /\ out = Returned d.
Proof.
  intros Hrun Hreq Hret.
  unfold generateImageWithRotation in Hrun.
  destruct allTokens as [|t rest].
  - destruct requiresAuth.
    + injection Hrun as _ <-.
      rewrite <- (app_nil_r (requests w)) in Hreq at 1.
      apply app_inv_head in Hreq. destruct pre; discriminate Hreq.
    + rewrite generateImageApiSingle_eq in Hrun. injection Hrun as <- <-.
      cbn [requests setRequests] in Hreq. apply app_inv_head in Hreq.
      apply singleton_split in Hreq as (-> & -> & ->).
      rewrite app_nil_r in Hret. split; [reflexivity | exact Hret].
  - apply rotationLoop_success_last in Hrun as (new & Hnew & Hlast).
    rewrite Hnew in Hreq. apply app_inv_head in Hreq.
    exact (Hlast pre r post d Hreq Hret).
Qed.

(** X14. Rotation recovers from a quota failure with the next secret of
    the list. With two distinct, non-empty, not yet exhausted secrets in
    front, if the call with the first fails with a quota-classified error
    and the call with the second answers with image details, the run sends
    exactly these two requests, in this order, returns the details, and
    marks the first secret, and only it, exhausted. *)
Theorem rotation_moves_to_next_secret prompt width height provider t1 t2 rest model seed
    requiresAuth w e d :
  let r1 := singleRequest env prompt width height provider (Some t1) model seed in
  let r2 := singleRequest env prompt width height provider (Some t2) model seed in
  t1 <> t2 ->
  truthy t1 = true -> truthy t2 = true ->
  (provider, t1) ∉ pool w -> (provider, t2) ∉ pool w ->
  decodeSingle (fetch env (requests w) r1) = Thrown e ->
  classify env e = quota ->
  decodeSingle (fetch env (requests w ++ [r1]) r2) = Returned d ->
  exists w',
    generateImageWithRotation env prompt width height provider (t1 :: t2 :: rest)
      model seed requiresAuth w = (Returned d, w')
    /\ requests w' = requests w ++ [r1; r2]
    /\ pool w' = {[ (provider, t1) ]} ∪ pool w.
Proof.
  intros r1 r2 Hne Ht1 Ht2 Hf1 Hf2 Hcall1 Hquota Hcall2.
  unfold generateImageWithRotation, MAX_RETRY_ATTEMPTS.
  cbn [rotationLoop].
  rewrite getNextAvailableToken_head by exact Hf1.
  cbn [truthyOpt]. rewrite Ht1. cbn [negb].
  unfold tryCatch at 1. rewrite generateImageApiSingle_eq. fold r1.
  rewrite Hcall1, (isQuotaError_quota env e Hquota).
  set (w1 := markTokenExhausted provider t1 _).
  assert (Hnext : getNextAvailableToken provider (t1 :: t2 :: rest) w1 = Some t2).
  { change (t1 :: t2 :: rest) with ([t1] ++ t2 :: rest).
    rewrite getNextAvailableToken_skip.
    - apply getNextAvailableToken_head. subst w1. cbn.
      intros Hin. apply elem_of_union in Hin as [Hin|Hin]; [|contradiction].
      apply elem_of_singleton in Hin. injection Hin as Heq. congruence.
    - constructor; [|constructor]. subst w1. cbn. set_solver. }
  rewrite Hnext. cbn [truthyOpt]. rewrite Ht2. cbn [negb].
  unfold tryCatch. rewrite generateImageApiSingle_eq. fold r2.
  assert (Hreq1 : requests w1 = requests w ++ [r1]) by reflexivity.
  rewrite Hreq1, Hcall2.
  eexists. split; [reflexivity|]. split.
  - cbn. rewrite <- app_assoc. reflexivity.
  - reflexivity.
Qed.

(** X15. When every secret of a non-empty list is already marked
    exhausted, no secret is tried: with [requiresAuth = true] the run
    throws the all-tokens-exhausted error without any request, and with
    [requiresAuth = false] it makes the single anonymous call and returns
    its outcome. *)
Theorem rotation_all_exhausted prompt width height provider allTokens model seed
    requiresAuth w :
  allTokens <> [] ->
  Forall (fun t => (provider, t) ∈ pool w) allTokens ->
  generateImageWithRotation env prompt width height provider allTokens model seed
    requiresAuth w
  = if requiresAuth
    then (Thrown (Error exhaustedMessage), w)
    else generateImageApiSingle env prompt width height provider None model seed w.
Proof.
  intros Hne Hall. unfold generateImageWithRotation.
  destruct allTokens as [|t rest]; [contradiction|].
  unfold MAX_RETRY_ATTEMPTS. cbn [rotationLoop].
  rewrite getNextAvailableToken_none by exact Hall. cbn [truthyOpt negb].
  destruct requiresAuth; reflexivity.
Qed.

End MoreRotationProperties.

(** * Further properties of the API client and the handlers *)

Section MoreLifecycleProperties.

Context (env : Env).

Lemma truthy_orStr a b : truthy b = true -> truthy (orStr a b) = true.
Proof. unfold orStr. destruct (truthy a) eqn:H; auto. Qed.

Lemma truthy_orElse a b : truthy b = true -> truthy (orElse a b) = true.
Proof.
  unfold orElse. destruct a as [s|]; auto. destruct (truthy s) eqn:H; auto.
Qed.

(** Whatever the code and the fields of the error, the text for the user
    is not empty. *)
Lemma getErrorMessage_nonempty info : truthy (getErrorMessage info) = true.
Proof.
  unfold getErrorMessage.
  destruct (ei_code info) as [code|]; [|apply truthy_orStr; reflexivity].
  repeat match goal with
  | |- truthy (match ?x with _ => _ end) = true => destruct x
  end;
  first [ reflexivity | apply truthy_orStr; reflexivity
        | apply truthy_orElse; apply truthy_orStr; reflexivity ].
Qed.

(** X16. An HTTP error always reaches the user with a text. For an answer
    outside 2xx whose body parses, [generateImage] and [upscaleImage]
    give a failure that carries the parsed error info, whose message is
    not empty, and an error text, picked by [getErrorMessage] from the
    code, that is not empty either, also when the body has no [error]
    field or an unknown code. *)
Theorem http_error_has_text res data :
  ok res = false ->
  res_text res = Json data ->
  decodeApi (Resolved res)
  = Failure (getErrorMessage (parseErrorResponse data)) (Some (parseErrorResponse data))
  /\ truthy (getErrorMessage (parseErrorResponse data)) = true
  /\ truthy (ei_message (parseErrorResponse data)) = true
  /\ ei_code (parseErrorResponse data) = j_code data.
Proof.
  intros Hok Htext. unfold decodeApi. rewrite Htext, Hok. cbn [negb].
  split; [reflexivity|]. split; [apply getErrorMessage_nonempty|].
  destruct data as [typeError|data]; [split; reflexivity|].
  split; [apply truthy_orElse; reflexivity | reflexivity].
Qed.

Lemma handleGenerate_save_eq i details vx w0 :
  handleGenerate_save env i details vx w0
  = (toast (ToastSuccess "Image generated!")
       (setGenerated (fst (saveToHistory env (homeHistoryInput i details) (tick w0)))
          (Date_now env (ticks w0)) details vx),
     snd (saveToHistory env (homeHistoryInput i details) (tick w0))).
Proof.
  unfold handleGenerate_save. cbn [now].
  destruct (saveToHistory env (homeHistoryInput i details) (tick w0)). reflexivity.
Qed.

(** X17. A generation that fails writes no history. When the result of
    [generateImage] is a failure, or a success without details or with an
    empty url, [handleGenerate] ends with [loading] off and no image, it
    shows the message in the status and in an error toast, and the world
    has changed by the one request only: the history storage and the
    clock are as before. *)
Theorem failed_generation_writes_no_history i v w msg :
  let cfg := PROVIDER_CONFIGS env (in_provider i) in
  let r1 := generateRequest env (hookOptions i) TokenUndefined in
  requiresAuth cfg && (length (in_providerTokens i) =? 0)%nat = false ->
  generationError (decodeApi (fetch env (requests w) r1)) = Some msg ->
  exists v',
    handleGenerate env i v w = (v', setRequests (requests w ++ [r1]) w)
    /\ v_loading v' = false
    /\ v_imageDetails v' = None
    /\ v_historyId v' = None
    /\ v_toasts v' = v_toasts v ++ [ToastError msg]
    /\ v_status v' =
       "Initializing..." +:+ newline +:+ "Sending request to " +:+ name cfg +:+ "..."
         +:+ newline +:+ "Error: " +:+ msg.
Proof.
  intros cfg r1 Hgo Herr. subst cfg.
  unfold handleGenerate, handleGenerate_begin. rewrite Hgo.
  unfold generateImage, doFetch. fold r1.
  unfold handleGenerate_resume, generationError in *.
  destruct (decodeApi (fetch env (requests w) r1)) as [[typeError|data]|error info].
  - injection Herr as <-.
    eexists. split; [reflexivity|]. cbn. repeat split.
    rewrite !append_assoc. reflexivity.
  - destruct (j_imageDetails data) as [details|].
    + destruct (truthy (img_url details)); [discriminate|].
      injection Herr as <-. cbn [negb].
      eexists. split; [reflexivity|]. cbn. repeat split.
      rewrite !append_assoc. reflexivity.
    + injection Herr as <-.
      eexists. split; [reflexivity|]. cbn. repeat split.
      rewrite !append_assoc. reflexivity.
  - injection Herr as <-.
    eexists. split; [reflexivity|]. cbn. repeat split.
    rewrite !append_assoc. reflexivity.
Qed.

(** X18. A successful upscale replaces the url everywhere. When the
    primary generation succeeds and the chained upscale answers with a
    url, [handleGenerate] shows the primary details with the upscaled url
    and passes that same url to [saveToHistory]: the history entry and the
    image on screen agree. Two requests were sent and no error toast
    raised. *)
Theorem successful_upscale_replaces_url i v w data details up u :
  let cfg := PROVIDER_CONFIGS env (in_provider i) in
  let r1 := generateRequest env (hookOptions i) TokenUndefined in
  let r2 := upscaleRequest env (img_url details) 4 (hfTokenArg (in_hfTokens i)) in
  let w2 := tick (setRequests (requests w ++ [r1; r2]) w) in
  let shown := withUrl u details in
  let saved := saveToHistory env (homeHistoryInput i shown) w2 in
  requiresAuth cfg && (length (in_providerTokens i) =? 0)%nat = false ->
  decodeApi (fetch env (requests w) r1) = Success data ->
  j_imageDetails data = Some details ->
  truthy (img_url details) = true ->
  in_upscale8k i = true ->
  String.prefix "http" (img_url details) = true ->
  decodeApi (fetch env (requests w ++ [r1]) r2) = Success up ->
  j_url up = Some u ->
  truthy u = true ->
  exists v',
    handleGenerate env i v w = (v', snd saved)
    /\ v_loading v' = false
    /\ v_imageDetails v' =
       Some {| md_details := shown;
               md_historyId := Some (fst saved);
               md_generatedAt := Some (Date_now env (ticks w)) |}
    /\ img_url shown = u
    /\ h_url (homeHistoryInput i shown) = u
    /\ v_toasts v' = v_toasts v ++ [ToastSuccess "Image generated!"]
    /\ requests (snd saved) = requests w ++ [r1; r2].
Proof.
  intros cfg r1 r2 w2 shown saved Hgo Hprimary Hdetails Hurl Hup Hhttp Hupscaled Hu Htruthy.
  subst cfg.
  destruct data as [typeError|data]; [discriminate Hdetails|]. cbn [fieldsOf] in Hdetails.
  destruct up as [typeError|up]; [discriminate Hu|]. cbn [fieldsOf] in Hu.
  unfold handleGenerate, handleGenerate_begin. rewrite Hgo.
  unfold generateImage, doFetch. fold r1. rewrite Hprimary.
  unfold handleGenerate_resume. rewrite Hdetails, Hurl, Hup, Hhttp. cbn [negb andb].
  unfold upscaleImage, doFetch. cbn [requests setRequests]. fold r2.
  rewrite Hupscaled, Hu. cbn [truthyOpt default]. rewrite Htruthy.
  rewrite handleGenerate_save_eq.
  assert (Hw : tick (setRequests ((requests w ++ [r1]) ++ [r2])
                       (setRequests (requests w ++ [r1]) w)) = w2).
  { subst w2. unfold setRequests, tick. cbn. rewrite <- app_assoc. reflexivity. }
  rewrite Hw. fold shown. fold saved.
  assert (Hreqs : requests (snd saved) = requests w ++ [r1; r2]).
  { subst saved. rewrite requests_saveToHistory. reflexivity. }
  eexists. split; [reflexivity|].
  repeat split; try reflexivity. exact Hreqs.
Qed.

(** X19. The upscaler is called only when asked for and only with an http
    url. With [upscale8k] off, or with a url that does not start with
    [http] (a data url, say), a successful generation sends the one
    generate request and nothing else; the original url is shown and is
    what [saveToHistory] gets. *)
Theorem no_upscale_single_request i v w data details :
  let cfg := PROVIDER_CONFIGS env (in_provider i) in
  let r1 := generateRequest env (hookOptions i) TokenUndefined in
  let w1 := tick (setRequests (requests w ++ [r1]) w) in
  let saved := saveToHistory env (homeHistoryInput i details) w1 in
  requiresAuth cfg && (length (in_providerTokens i) =? 0)%nat = false ->
  decodeApi (fetch env (requests w) r1) = Success data ->
  j_imageDetails data = Some details ->
  truthy (img_url details) = true ->
  in_upscale8k i && String.prefix "http" (img_url details) = false ->
  exists v',
    handleGenerate env i v w = (v', snd saved)
    /\ v_loading v' = false
    /\ v_imageDetails v' =
       Some {| md_details := details;
               md_historyId := Some (fst saved);
               md_generatedAt := Some (Date_now env (ticks w)) |}
    /\ v_toasts v' = v_toasts v ++ [ToastSuccess "Image generated!"]
    /\ requests (snd saved) = requests w ++ [r1].
Proof.
  intros cfg r1 w1 saved Hgo Hprimary Hdetails Hurl Hskip. subst cfg.
  destruct data as [typeError|data]; [discriminate Hdetails|]. cbn [fieldsOf] in Hdetails.
  unfold handleGenerate, handleGenerate_begin. rewrite Hgo.
  unfold generateImage, doFetch. fold r1. rewrite Hprimary.
  unfold handleGenerate_resume. rewrite Hdetails, Hurl, Hskip. cbn [negb].
  rewrite handleGenerate_save_eq. fold w1. fold saved.
  assert (Hreqs : requests (snd saved) = requests w ++ [r1]).
  { subst saved. rewrite requests_saveToHistory. reflexivity. }
  eexists. split; [reflexivity|].
  repeat split; try reflexivity. exact Hreqs.
Qed.

(** X20. How a generation of an image node ends. If the rotation throws,
    the node reports the message of the error and the history storage is
    as before: nothing is saved for a failed generation. If the rotation
    returns details, the node reports their url and duration, and (the
    storage accepting the write) the store then starts with a new entry
    for that url, marked as coming from the flow page. *)
Theorem nodeGenerate_outcome data provider selectedModel tokens w :
  let run :=
    generateImageWithRotation env (nd_prompt data) (nd_width data) (nd_height data)
      provider tokens selectedModel (nd_seed data)
      (requiresAuth (PROVIDER_CONFIGS env provider)) w in
  let node := nodeGenerate env data provider selectedModel tokens w in
  (forall err, fst run = Thrown err ->
     node = (UpdateImageError (message err), snd run)
     /\ localStorage (snd node) = localStorage w)
  /\ (forall d, fst run = Returned d ->
        let item := flowHistoryInput data provider selectedModel d in
        fst node = UpdateImageGenerated (img_url d) (img_duration d)
        /\ snd node = snd (saveToHistory env item (snd run))
        /\ h_url item = img_url d
        /\ h_source item = Some flow
        /\ (storageReliable env ->
            getAllHistoryIncludingExpired (snd node)
            = newEntry env item (snd run)
                :: take (MAX_ITEMS - 1) (retained env (snd run)))).
Proof.
  intros run node. subst node. unfold nodeGenerate. fold run.
  destruct run as [out w1] eqn:Hrun. cbn [fst snd].
  split.
  - intros err ->. split; [reflexivity|]. cbn [snd].
    apply generateImageWithRotation_frame in Hrun as (_ & Hls & _). exact Hls.
  - intros d ->.
    set (item := flowHistoryInput data provider selectedModel d).
    change (saveToHistory env _ w1) with (saveToHistory env item w1).
    destruct (saveToHistory env item w1) as [newId w2] eqn:Hsave. cbn [fst snd].
    split; [reflexivity|]. split; [reflexivity|].
    split; [reflexivity|]. split; [reflexivity|].
    intros Hrel. replace w2 with (snd (saveToHistory env item w1)) by (rewrite Hsave; reflexivity).
    rewrite saveToHistory_stored by exact Hrel. reflexivity.
Qed.

(** X21. A manual upscale that succeeds happens once. From a shown image
    that is not yet upscaled, when [upscaleImage] answers with a url,
    [handleUpscale] sends one request, replaces the url of the shown
    image, sets [isUpscaled] and clears [isUpscaling]; the history storage
    is not touched, so the stored entry keeps the original url. While the
    call is pending, and again after it has succeeded, a further
    invocation returns at the guard: no request, no change. *)
Theorem handleUpscale_success_once i v w shown data u :
  let r := upscaleRequest env (img_url (md_details shown)) 4
             (hfTokenArg (in_hfTokens i)) in
  v_imageDetails v = Some shown ->
  truthy (img_url (md_details shown)) = true ->
  v_isUpscaled v = false ->
  decodeApi (fetch env (requests w) r) = Success data ->
  j_url data = Some u ->
  truthy u = true ->
  exists v1 v',
    handleUpscale_begin env i false v w
    = (true, v1, setRequests (requests w ++ [r]) w, Some (Success data))
    /\ handleUpscale_begin env i true v1 (setRequests (requests w ++ [r]) w)
       = (true, v1, setRequests (requests w ++ [r]) w, None)
    /\ handleUpscale env i false v w = (false, v', setRequests (requests w ++ [r]) w)
    /\ v_isUpscaled v' = true
    /\ v_imageDetails v' =
       Some {| md_details := withUrl u (md_details shown);
               md_historyId := md_historyId shown;
               md_generatedAt := md_generatedAt shown |}
    /\ v_toasts v' = v_toasts v ++ [ToastSuccess "Image upscaled to 4x!"]
    /\ localStorage (setRequests (requests w ++ [r]) w) = localStorage w
    /\ handleUpscale env i false v' (setRequests (requests w ++ [r]) w)
       = (false, v', setRequests (requests w ++ [r]) w).
Proof.
  intros r Himg Hurl Hnot Hres Hu Htruthy.
  destruct data as [typeError|data]; [discriminate Hu|]. cbn [fieldsOf] in Hu.
  assert (Hbegin : handleUpscale_begin env i false v w
                   = (true, addStatus "Upscaling to 4x..." v,
                      setRequests (requests w ++ [r]) w,
                      Some (Success (JsonObj data)))).
  { unfold handleUpscale_begin. rewrite Himg, Hurl, Hnot. cbn [negb orb].
    unfold upscaleImage, doFetch. fold r. rewrite Hres. reflexivity. }
  exists (addStatus "Upscaling to 4x..." v).
  exists (toast (ToastSuccess "Image upscaled to 4x!")
            (addStatus "4x upscale complete!"
               (setIsUpscaled true
                  (setImageUrl u (addStatus "Upscaling to 4x..." v))))).
  split; [exact Hbegin|].
  split.
  { unfold handleUpscale_begin. cbn [v_imageDetails addStatus]. rewrite Himg.
    rewrite orb_true_r. reflexivity. }
  split.
  { unfold handleUpscale. rewrite Hbegin. unfold handleUpscale_resume.
    rewrite Hu. cbn [truthyOpt default]. rewrite Htruthy. reflexivity. }
  split; [reflexivity|].
  split; [cbn; rewrite Himg; reflexivity|].
  split; [reflexivity|].
  split; [reflexivity|].
  unfold handleUpscale, handleUpscale_begin. cbn. rewrite Himg.
  rewrite orb_true_r. reflexivity.
Qed.

(** X22. A manual upscale that fails changes nothing but the messages.
    When [upscaleImage] fails or answers without a url, [handleUpscale]
    leaves the shown image and [isUpscaled] as they were, clears
    [isUpscaling], raises the upscale-failed toast, and does not touch the
    history storage; the guard then lets a retry through, which sends a
    new request. *)
Theorem handleUpscale_failure_keeps_image i v w shown :
  let r := upscaleRequest env (img_url (md_details shown)) 4
             (hfTokenArg (in_hfTokens i)) in
  let w' := setRequests (requests w ++ [r]) w in
  v_imageDetails v = Some shown ->
  truthy (img_url (md_details shown)) = true ->
  v_isUpscaled v = false ->
  upscaleFailed (decodeApi (fetch env (requests w) r)) = true ->
  exists v',
    handleUpscale env i false v w = (false, v', w')
    /\ v_imageDetails v' = Some shown
    /\ v_isUpscaled v' = false
    /\ v_toasts v' = v_toasts v ++ [ToastError "Upscale failed"]
    /\ localStorage w' = localStorage w
    /\ exists v2 result,
         handleUpscale_begin env i false v' w'
         = (true, v2, setRequests (requests w ++ [r; r]) w, Some result).
Proof.
  intros r w' Himg Hurl Hnot Hfail.
  unfold handleUpscale, handleUpscale_begin. rewrite Himg, Hurl, Hnot. cbn [negb orb].
  unfold upscaleImage, doFetch. fold r.
  assert (Hw2 : setRequests (requests w' ++ [r]) w'
                = setRequests (requests w ++ [r; r]) w).
  { subst w'. unfold setRequests. cbn. rewrite <- app_assoc. reflexivity. }
  unfold handleUpscale_resume.
  destruct (decodeApi (fetch env (requests w) r)) as [[typeError|data]|error info];
    cbn [upscaleFailed] in Hfail; [discriminate Hfail| |].
  - apply negb_true_iff in Hfail. rewrite Hfail.
    eexists. split; [reflexivity|]. cbn. rewrite Himg, Hnot.
    repeat split. rewrite Hurl. cbn [negb orb]. fold r.
    rewrite <- Hw2. eexists. eexists. reflexivity.
  - eexists. split; [reflexivity|]. cbn. rewrite Himg, Hnot.
    repeat split. rewrite Hurl. cbn [negb orb]. fold r.
    rewrite <- Hw2. eexists. eexists. reflexivity.
Qed.

(** X24. A manual upscale answered by a 2xx [null] body gets stuck.
    Reading [result.data.url] throws and [handleUpscale] has no [try]: its
    promise rejects with the [TypeError], [setIsUpscaling(false)] is never
    reached, and neither a status line nor a toast reports the failure.
    The shown image is unchanged and not marked upscaled, one request was
    sent, and every later invocation, seeing [isUpscaling] still set,
    returns at the guard without a request. *)
Theorem handleUpscale_null_answer_sticks i v w shown typeError :
  let r := upscaleRequest env (img_url (md_details shown)) 4
             (hfTokenArg (in_hfTokens i)) in
  let w' := setRequests (requests w ++ [r]) w in
  let v' := addStatus "Upscaling to 4x..." v in
  v_imageDetails v = Some shown ->
  truthy (img_url (md_details shown)) = true ->
  v_isUpscaled v = false ->
  decodeApi (fetch env (requests w) r) = Success (JsonNull typeError) ->
  handleUpscale env i false v w = (true, v', w')
  /\ handleUpscale_thrown (decodeApi (fetch env (requests w) r))
     = Some (Error typeError)
  /\ v_imageDetails v' = Some shown
  /\ v_isUpscaled v' = false
  /\ v_toasts v' = v_toasts v
  /\ localStorage w' = localStorage w
  /\ handleUpscale env i true v' w' = (true, v', w').
Proof.
  intros r w' v' Himg Hurl Hnot Hres.
  split.
  { unfold handleUpscale, handleUpscale_begin. rewrite Himg, Hurl, Hnot. cbn [negb orb].
    unfold upscaleImage, doFetch. fold r. rewrite Hres. reflexivity. }
  split; [rewrite Hres; reflexivity|].
  split; [exact Himg|]. split; [exact Hnot|].
  split; [reflexivity|]. split; [reflexivity|].
  unfold handleUpscale, handleUpscale_begin.
  subst v'. cbn [v_imageDetails addStatus]. rewrite Himg.
  rewrite orb_true_r. reflexivity.
Qed.

Lemma orElse_some_empty s : orElse (Some s) "" = s.
Proof.
  unfold orElse, truthy. destruct (String.eqb s "") eqn:H; [|reflexivity].
  apply String.eqb_eq in H. subst. reflexivity.
Qed.

(** X23. Save then load. Loading the history entry that [handleGenerate]
    writes for some image details shows those details again, field for
    field, except that [dimensions] is rebuilt from the stored width and
    height; the history id is the id of the entry, and the form gets back
    the provider, model and size of the generation. The time shown is the
    entry's own [timestamp], the clock reading of [saveToHistory]. *)
Theorem load_restores_generation tokensOf i details w i0 v0 :
  let entry := newEntry env (homeHistoryInput i details) w in
  let loaded := handleLoadFromHistory tokensOf entry i0 v0 in
  v_imageDetails (snd loaded) =
    Some {| md_details :=
              {| img_url := img_url details;
                 img_provider := img_provider details;
                 img_model := img_model details;
                 img_dimensions := pretty (in_width i) +:+ " x " +:+ pretty (in_height i);
                 img_duration := img_duration details;
                 img_seed := img_seed details;
                 img_steps := img_steps details;
                 img_prompt := img_prompt details;
                 img_negativePrompt := img_negativePrompt details |};
            md_historyId := Some (id entry);
            md_generatedAt := Some (Date_now env (ticks w)) |}
  /\ v_historyId (snd loaded) = Some (id entry)
  /\ v_isUpscaled (snd loaded) = false
  /\ in_provider (fst loaded) = in_provider i
  /\ in_model (fst loaded) = in_model i
  /\ in_width (fst loaded) = in_width i
  /\ in_height (fst loaded) = in_height i
  /\ in_prompt (fst loaded) = img_prompt details
  /\ in_negativePrompt (fst loaded) = img_negativePrompt details
  /\ in_providerTokens (fst loaded) = tokensOf (in_provider i).
Proof.
  intros entry loaded.
  destruct (newEntry_fields env (homeHistoryInput i details) w)
    as (Hinput & _ & Hts & _).
  fold entry in Hinput, Hts.
  subst loaded. unfold handleLoadFromHistory, loadedDetails.
  cbn [fst snd toast v_imageDetails v_historyId v_isUpscaled in_provider in_model
       in_width in_height in_prompt in_negativePrompt in_providerTokens].
  rewrite Hinput, Hts. cbn [homeHistoryInput h_url h_providerName h_modelName
    h_width h_height h_duration h_seed h_steps h_prompt h_negativePrompt
    h_providerId h_modelId].
  rewrite !orElse_some_empty. repeat split.
Qed.

End MoreLifecycleProperties.

(** ** The further properties at sample inputs *)

Lemma saveToHistory_then_getHistoryById_witness :
  let w := Samples.worldWith [Samples.stored "id-0" (JsNumber 5000)] in
  let saved := saveToHistory Samples.okEnv Samples.historyInput w in
  storageReliable Samples.okEnv
  /\ fst saved = "id-0"
  /\ (timestamp <$> getHistoryById "id-0" w) = Some 0
  /\ (timestamp <$> getHistoryById "id-0" (snd saved)) = Some 1000.
Proof.
  intros w saved.
  split; [exact storageReliable_okEnv|]. split; [reflexivity|]. split; [reflexivity|].
  change "id-0" with (fst saved) at 1. subst saved.
  rewrite (saveToHistory_then_getHistoryById Samples.okEnv Samples.historyInput w
             storageReliable_okEnv).
  reflexivity.
Defined.

Lemma deleteHistoryItem_removes_witness :
  let w := Samples.worldWith [Samples.stored "a" (JsNumber 500);
                              Samples.stored "b" (JsNumber 5000);
                              Samples.stored "a" (JsNumber 5000)] in
  setItemAccepts Samples.okEnv [Samples.stored "b" (JsNumber 5000)] = true
  /\ getAllHistoryIncludingExpired (deleteHistoryItem Samples.okEnv "a" w)
     = [Samples.stored "b" (JsNumber 5000)]
  /\ getHistoryById "a" (deleteHistoryItem Samples.okEnv "a" w) = None.
Proof.
  intros w.
  destruct (deleteHistoryItem_removes Samples.okEnv "a" w eq_refl)
    as (Hkept & Hgone & _).
  split; [reflexivity|]. split; [rewrite Hkept; reflexivity | exact Hgone].
Defined.

Lemma unreadable_store_is_empty_witness :
  localStorage Samples.corruptWorld = Some Malformed
  /\ fst (getHistory Samples.okEnv Samples.corruptWorld) = []
  /\ (storageReliable Samples.okEnv ->
      length (getAllHistoryIncludingExpired
                (snd (saveToHistory Samples.okEnv Samples.historyInput
                        Samples.corruptWorld))) = 1%nat).
Proof.
  destruct (unreadable_store_is_empty Samples.okEnv Samples.historyInput "x"
              Samples.corruptWorld (or_intror (or_introl eq_refl)))
    as (Hget & _ & _ & Hsave).
  split; [reflexivity|]. split; [rewrite Hget; reflexivity|].
  intros Hrel. unfold getAllHistoryIncludingExpired. rewrite (Hsave Hrel). reflexivity.
Defined.

Lemma saveToHistory_bounded_witness :
  let w := Samples.worldWith (Samples.liveEntries 201) in
  storageReliable Samples.okEnv
  /\ length (getAllHistoryIncludingExpired w) = 201%nat
  /\ (length (getAllHistoryIncludingExpired
                (snd (saveToHistory Samples.okEnv Samples.historyInput w)))
      <= 200)%nat.
Proof.
  intros w.
  split; [exact storageReliable_okEnv|]. split; [vm_compute; reflexivity|].
  apply (saveToHistory_bounded Samples.okEnv Samples.historyInput w
           storageReliable_okEnv).
Defined.

Lemma refused_write_is_silent_witness :
  let w := Samples.worldWith [Samples.stored "old" (JsNumber 500)] in
  (forall items, setItemAccepts Samples.fullStorageEnv items = false)
  /\ fst (saveToHistory Samples.fullStorageEnv Samples.historyInput w) = "hist_1001_r0"
  /\ getAllHistoryIncludingExpired
       (snd (saveToHistory Samples.fullStorageEnv Samples.historyInput w))
     = [Samples.stored "old" (JsNumber 500)].
Proof.
  intros w.
  assert (Hfull : forall items, setItemAccepts Samples.fullStorageEnv items = false)
    by (intros items; reflexivity).
  destruct (refused_write_is_silent Samples.fullStorageEnv Samples.historyInput w Hfull)
    as (Hid & Hls & _).
  split; [exact Hfull|]. split; [rewrite Hid; vm_compute; reflexivity|].
  unfold getAllHistoryIncludingExpired. rewrite Hls. reflexivity.
Defined.

Lemma clearExpiredHistory_count_witness :
  let w := Samples.worldWith [Samples.stored "old" (JsNumber 500);
                              Samples.stored "new" (JsNumber 5000)] in
  setItemAccepts Samples.okEnv [Samples.stored "new" (JsNumber 5000)] = true
  /\ fst (clearExpiredHistory Samples.okEnv w) = 1
  /\ getAllHistoryIncludingExpired (snd (clearExpiredHistory Samples.okEnv w))
     = [Samples.stored "new" (JsNumber 5000)].
Proof.
  intros w.
  destruct (clearExpiredHistory_count Samples.okEnv w eq_refl)
    as (Hafter & Hcount & _).
  split; [reflexivity|]. split; [rewrite Hcount; reflexivity|].
  rewrite Hafter. reflexivity.
Defined.

Lemma getHistory_all_alive_no_write_witness :
  Forall (fun i => unexpired (Date_now Samples.okEnv (ticks Samples.junkWorld)) i = true)
    (getAllHistoryIncludingExpired Samples.junkWorld)
  /\ localStorage (snd (getHistory Samples.okEnv Samples.junkWorld))
     = Some (ArrayOf [NotAnObject; Item (Samples.stored "new" (JsNumber 5000))]).
Proof.
  assert (Halive : Forall (fun i => unexpired (Date_now Samples.okEnv
                                                 (ticks Samples.junkWorld)) i = true)
                     (getAllHistoryIncludingExpired Samples.junkWorld))
    by (repeat constructor).
  split; [exact Halive|].
  rewrite (getHistory_all_alive_no_write Samples.okEnv Samples.junkWorld Halive).
  reflexivity.
Defined.

Lemma badge_and_sweep_witness :
  expiresAt (Samples.stored "e" (JsNumber 1000)) = JsNumber 1000
  /\ unexpired 1000 (Samples.stored "e" (JsNumber 1000)) = false
  /\ isExpired 1000 1000 = false.
Proof.
  split; [reflexivity|].
  apply (badge_and_sweep (Samples.stored "e" (JsNumber 1000)) 1000 1000 eq_refl).
  reflexivity.
Defined.

Lemma rotation_touches_only_its_pool_witness :
  let w' := snd (generateImageWithRotation Samples.quotaEnv "a cat" 1024 1024
                   huggingface ["t1"; "t2"] "z-image-turbo" 7 true
                   Samples.emptyWorld) in
  (huggingface, "t1") ∈ pool w'
  /\ ((gitee, "t1") ∈ pool w' <-> (gitee, "t1") ∈ pool Samples.emptyWorld).
Proof.
  intros w'.
  destruct (rotation_touches_only_its_pool Samples.quotaEnv "a cat" 1024 1024
              huggingface ["t1"; "t2"] "z-image-turbo" 7 true Samples.emptyWorld)
    as (_ & _ & _ & _ & _ & Hother).
  split; [apply (bool_decide_unpack _); vm_compute; exact I|].
  apply Hother. discriminate.
Defined.

Lemma rotation_success_is_last_witness :
  let r := singleRequest Samples.okEnv "a cat" 1024 1024 huggingface (Some "t1")
             "z-image-turbo" 7 in
  let run :=
    generateImageWithRotation Samples.okEnv "a cat" 1024 1024 huggingface
      ["t1"; "t2"] "z-image-turbo" 7 true Samples.emptyWorld in
  requests (snd run) = requests Samples.emptyWorld ++ [] ++ r :: []
  /\ decodeSingle (fetch Samples.okEnv (requests Samples.emptyWorld ++ []) r)
     = Returned Samples.picture
  /\ fst run = Returned Samples.picture.
Proof.
  intros r run.
  split; [reflexivity|]. split; [reflexivity|].
  apply (rotation_success_is_last Samples.okEnv "a cat" 1024 1024 huggingface
           ["t1"; "t2"] "z-image-turbo" 7 true Samples.emptyWorld (fst run) (snd run)
           [] r [] Samples.picture); reflexivity.
Defined.

Lemma rotation_moves_to_next_secret_witness :
  exists w',
    generateImageWithRotation Samples.quotaOnceEnv "a cat" 1024 1024 huggingface
      ["t1"; "t2"; "t3"] "z-image-turbo" 7 true Samples.emptyWorld
    = (Returned Samples.picture, w')
    /\ length (requests w') = 2%nat
    /\ pool w' = {[ (huggingface, "t1") ]}.
Proof.
  destruct (rotation_moves_to_next_secret Samples.quotaOnceEnv "a cat" 1024 1024
              huggingface "t1" "t2" ["t3"] "z-image-turbo" 7 true Samples.emptyWorld
              (mkError "quota exceeded" (Some 429)) Samples.picture)
    as (w' & Hrun & Hreq & Hpool).
  - discriminate.
  - reflexivity.
  - reflexivity.
  - apply not_elem_of_empty.
  - apply not_elem_of_empty.
  - reflexivity.
  - reflexivity.
  - reflexivity.
  - exists w'. split; [exact Hrun|]. split; [rewrite Hreq; reflexivity|].
    rewrite Hpool. apply union_empty_r_L.
Defined.

Lemma rotation_all_exhausted_witness :
  let w := {| pool := {[ (huggingface, "t1") ]}; requests := [];
              localStorage := None; ticks := 0; draws := 0 |} in
  Forall (fun t => (huggingface, t) ∈ pool w) ["t1"]
  /\ generateImageWithRotation Samples.okEnv "a cat" 1024 1024 huggingface ["t1"]
       "z-image-turbo" 7 true w
     = (Thrown (Error exhaustedMessage), w).
Proof.
  intros w.
  assert (Hall : Forall (fun t => (huggingface, t) ∈ pool w) ["t1"])
    by (repeat constructor; cbn; set_solver).
  split; [exact Hall|].
  apply (rotation_all_exhausted Samples.okEnv "a cat" 1024 1024 huggingface ["t1"]
           "z-image-turbo" 7 true w); [discriminate | exact Hall].
Defined.

Lemma http_error_has_text_witness :
  let res := {| res_status := 500;
                res_text :=
                  Json (JsonObj
                    {| j_error := None; j_code := Some "TIMEOUT"; j_details := None;
                       j_imageDetails := None; j_url := None |}) |} in
  ok res = false
  /\ decodeApi (Resolved res)
     = Failure "Request timed out. The service may be busy. Please try again."
         (Some {| ei_message := "Unknown error"; ei_code := Some "TIMEOUT";
                  ei_details := None |}).
Proof.
  intros res. split; [reflexivity|].
  destruct (http_error_has_text res
              (JsonObj {| j_error := None; j_code := Some "TIMEOUT"; j_details := None;
                 j_imageDetails := None; j_url := None |}) eq_refl eq_refl)
    as (Hdec & _).
  rewrite Hdec. reflexivity.
Defined.

Lemma failed_generation_writes_no_history_witness :
  let run :=
    handleGenerate Samples.quotaEnv Samples.inputs Samples.idleView
      Samples.emptyWorld in
  v_toasts (fst run) = [ToastError "quota exceeded"]
  /\ v_loading (fst run) = false
  /\ localStorage (snd run) = None
  /\ length (requests (snd run)) = 1%nat.
Proof.
  intros run.
  destruct (failed_generation_writes_no_history Samples.quotaEnv Samples.inputs
              Samples.idleView Samples.emptyWorld "quota exceeded" eq_refl eq_refl)
    as (v' & Hrun & Hload & _ & _ & Htoasts & _).
  subst run. rewrite Hrun. cbn [fst snd].
  split; [exact Htoasts|]. split; [exact Hload|]. split; reflexivity.
Defined.

Lemma successful_upscale_replaces_url_witness :
  let run :=
    handleGenerate Samples.upscaleOkEnv Samples.inputs Samples.idleView
      Samples.emptyWorld in
  (img_url ∘ md_details <$> v_imageDetails (fst run))
  = Some "https://img.example/1-4x.png"
  /\ (h_url ∘ input <$> getAllHistoryIncludingExpired (snd run))
     = ["https://img.example/1-4x.png"].
Proof.
  intros run.
  destruct (successful_upscale_replaces_url Samples.upscaleOkEnv Samples.inputs
              Samples.idleView Samples.emptyWorld
              (JsonObj {| j_error := None; j_code := None; j_details := None;
                 j_imageDetails := Some Samples.picture; j_url := None |})
              Samples.picture
              (JsonObj {| j_error := None; j_code := None; j_details := None;
                 j_imageDetails := None;
                 j_url := Some "https://img.example/1-4x.png" |})
              "https://img.example/1-4x.png")
    as (v' & Hrun & _ & Hshown & _); try reflexivity.
  subst run. rewrite Hrun. cbn [fst snd]. rewrite Hshown.
  split; reflexivity.
Defined.

Lemma no_upscale_single_request_witness :
  let run :=
    handleGenerate Samples.okEnv Samples.noTokenInputs Samples.idleView
      Samples.emptyWorld in
  in_upscale8k Samples.noTokenInputs = false
  /\ length (requests (snd run)) = 1%nat
  /\ v_toasts (fst run) = [ToastSuccess "Image generated!"].
Proof.
  intros run.
  destruct (no_upscale_single_request Samples.okEnv Samples.noTokenInputs
              Samples.idleView Samples.emptyWorld
              (JsonObj {| j_error := None; j_code := None; j_details := None;
                 j_imageDetails := Some Samples.picture; j_url := None |})
              Samples.picture)
    as (v' & Hrun & _ & _ & Htoasts & Hreqs); try reflexivity.
  subst run. rewrite Hrun. cbn [fst snd].
  split; [reflexivity|]. split; [rewrite Hreqs; reflexivity | exact Htoasts].
Defined.

Lemma nodeGenerate_outcome_witness :
  nodeGenerate Samples.quotaEnv Samples.pendingNode huggingface "z-image-turbo"
    ["t1"] Samples.emptyWorld
  = (UpdateImageError exhaustedMessage,
     snd (generateImageWithRotation Samples.quotaEnv "a cat" 1024 1024 huggingface
            ["t1"] "z-image-turbo" 7 true Samples.emptyWorld))
  /\ fst (nodeGenerate Samples.okEnv Samples.pendingNode huggingface "z-image-turbo"
            [] Samples.emptyWorld)
     = UpdateImageGenerated "https://img.example/1.png" "2.0s".
Proof.
  destruct (nodeGenerate_outcome Samples.quotaEnv Samples.pendingNode huggingface
              "z-image-turbo" ["t1"] Samples.emptyWorld) as [Hfail _].
  destruct (nodeGenerate_outcome Samples.okEnv Samples.pendingNode huggingface
              "z-image-turbo" [] Samples.emptyWorld) as [_ Hok].
  split.
  - apply (Hfail (Error exhaustedMessage)). reflexivity.
  - apply (Hok Samples.picture). reflexivity.
Defined.

Lemma handleUpscale_success_once_witness :
  let run := handleUpscale Samples.upscaleOkEnv Samples.inputs false
               Samples.shownView Samples.emptyWorld in
  v_isUpscaled (snd (fst run)) = true
  /\ length (requests (snd run)) = 1%nat
  /\ handleUpscale Samples.upscaleOkEnv Samples.inputs false (snd (fst run)) (snd run)
     = run.
Proof.
  intros run.
  destruct (handleUpscale_success_once Samples.upscaleOkEnv Samples.inputs
              Samples.shownView Samples.emptyWorld
              {| md_details := Samples.picture; md_historyId := Some "id-0";
                 md_generatedAt := Some 1000 |}
              (JsonObj {| j_error := None; j_code := None; j_details := None;
                 j_imageDetails := None;
                 j_url := Some "https://img.example/1-4x.png" |})
              "https://img.example/1-4x.png")
    as (v1 & v' & _ & _ & Hrun & Hup & _ & _ & _ & Hagain); try reflexivity.
  subst run. rewrite Hrun. cbn [fst snd].
  split; [exact Hup|]. split; [reflexivity | exact Hagain].
Defined.

Lemma handleUpscale_failure_keeps_image_witness :
  let run := handleUpscale Samples.upscaleDownEnv Samples.inputs false
               Samples.shownView Samples.emptyWorld in
  v_imageDetails (snd (fst run)) = v_imageDetails Samples.shownView
  /\ v_isUpscaled (snd (fst run)) = false
  /\ v_toasts (snd (fst run)) = [ToastError "Upscale failed"].
Proof.
  intros run.
  destruct (handleUpscale_failure_keeps_image Samples.upscaleDownEnv Samples.inputs
              Samples.shownView Samples.emptyWorld
              {| md_details := Samples.picture; md_historyId := Some "id-0";
                 md_generatedAt := Some 1000 |})
    as (v' & Hrun & Himg & Hup & Htoasts & _); try reflexivity.
  subst run. rewrite Hrun. cbn [fst snd].
  split; [exact Himg|]. split; [exact Hup | exact Htoasts].
Defined.

Lemma handleUpscale_null_answer_sticks_witness :
  let run := handleUpscale Samples.upscaleNullEnv Samples.inputs false
               Samples.shownView Samples.emptyWorld in
  fst (fst run) = true
  /\ v_toasts (snd (fst run)) = []
  /\ length (requests (snd run)) = 1%nat
  /\ handleUpscale Samples.upscaleNullEnv Samples.inputs (fst (fst run))
       (snd (fst run)) (snd run) = run.
Proof.
  intros run.
  destruct (handleUpscale_null_answer_sticks Samples.upscaleNullEnv Samples.inputs
              Samples.shownView Samples.emptyWorld
              {| md_details := Samples.picture; md_historyId := Some "id-0";
                 md_generatedAt := Some 1000 |}
              "Cannot read properties of null (reading 'url')"
              eq_refl eq_refl eq_refl eq_refl)
    as (Hrun & _ & _ & _ & Htoasts & _ & Hagain).
  subst run. rewrite Hrun. cbn [fst snd].
  split; [reflexivity|]. split; [exact Htoasts|]. split; [reflexivity | exact Hagain].
Defined.
